(** * Real-time CDC pipeline ([src/pipelines/cdc_realtime.py])

    A shallow embedding of the CDC ingestion engine: the Debezium envelope
    parser [CDCEvent.from_debezium], the row projector
    [CDCEvent.to_bigquery_row], the sink writer [BigQueryCDCSink.write_batch]
    and the engine [CDCRealtimePipeline] with its message handler, flush policy
    and flush.

    Modelling conventions.
    - Python values that [json.loads] can produce are the inductive [pyval].
      Python [int] is [Z].  Python [str] is a Rocq [string] whose characters
      are read as the code points 0..255.  JSON numbers with a fraction or an
      exponent (Python [float]) are outside the modelled fragment.
    - [time.time()] and the flush interval are IEEE binary64 values
      ([PrimFloat.float]); [datetime.utcnow()] is a number of microseconds
      since the Unix epoch.
    - A Python exception is a value of [exn]; a computation that may raise
      returns a [result].  Effectful methods run in the monad [M], which
      threads the pipeline object, the log, the trace of BigQuery client calls
      and the acknowledgements sent to the bus, and reads the clock and the
      BigQuery client's answers from an environment [Env]. *)

From Stdlib Require Import ZArith List String Ascii Bool Lia.
From Stdlib Require Import DecimalString Floats.
Import ListNotations.

Open Scope Z_scope.
Set Warnings "-register-all".

(** ** Python values, exceptions and the library functions the module calls *)

Module Py.

Inductive pyval : Type :=
| PNone
| PBool (b : bool)
| PInt (n : Z)
| PStr (s : string)
| PList (xs : list pyval)
| PDict (items : list (string * pyval)).

(** The exception classes the pipeline can meet.  All of them derive from
    [Exception]; only [JSONDecodeError] has an [except] clause of its own. *)
Inductive exn : Type :=
| JSONDecodeError
| UnicodeDecodeError
| AttributeError
| TypeError
| ValueError
| SinkError.

Inductive result (A : Type) : Type :=
| Ok (a : A)
| Raise (e : exn).
Arguments Ok {A} a.
Arguments Raise {A} e.

Definition rbind {A B} (r : result A) (k : A -> result B) : result B :=
  match r with
  | Ok a => k a
  | Raise e => Raise e
  end.

(** [bool(v)]. *)
Definition truthy (v : pyval) : bool :=
  match v with
  | PNone => false
  | PBool b => b
  | PInt n => negb (n =? 0)
  | PStr s => negb (String.eqb s EmptyString)
  | PList xs => match xs with [] => false | _ => true end
  | PDict items => match items with [] => false | _ => true end
  end.

(** [a or b]. *)
Definition py_or (a b : pyval) : pyval := if truthy a then a else b.

(** [hash(v)] succeeds: lists and dicts are unhashable. *)
Definition hashable (v : pyval) : bool :=
  match v with
  | PList _ | PDict _ => false
  | _ => true
  end.

(** [a == b] on hashable values ([bool] is a subclass of [int]). *)
Definition py_eqb (a b : pyval) : bool :=
  match a, b with
  | PNone, PNone => true
  | PBool x, PBool y => Bool.eqb x y
  | PBool x, PInt n | PInt n, PBool x => n =? (if x then 1 else 0)
  | PInt n, PInt m => n =? m
  | PStr s, PStr t => String.eqb s t
  | _, _ => false
  end.

(** [d.get(k)] on the items of a dict. *)
Fixpoint dict_lookup (items : list (string * pyval)) (k : string) : option pyval :=
  match items with
  | [] => None
  | (k', v) :: rest => if String.eqb k' k then Some v else dict_lookup rest k
  end.

(** [v.get(k, default)]: only a dict has [get]. *)
Definition py_get (v : pyval) (k : string) (default : pyval) : result pyval :=
  match v with
  | PDict items =>
      Ok (match dict_lookup items k with Some x => x | None => default end)
  | _ => Raise AttributeError
  end.

(** *** Text *)

Definition decimal (n : Z) : string := NilZero.string_of_int (Z.to_int n).

Definition hex_digit (n : N) : ascii :=
  if (n <? 10)%N then ascii_of_N (48 + n) else ascii_of_N (87 + n).

Definition hex2 (n : N) : string :=
  String (hex_digit (n / 16)) (String (hex_digit (n mod 16)) EmptyString).

Fixpoint join (sep : string) (parts : list string) : string :=
  match parts with
  | [] => EmptyString
  | [p] => p
  | p :: rest => (p ++ sep ++ join sep rest)%string
  end.

(** The double quote character. *)
Definition dquote : ascii := "034"%char.

(** [json.encoder.py_encode_basestring_ascii] on one character. *)
Definition json_escape_char (c : ascii) : string :=
  let n := N_of_ascii c in
  if (n =? 92)%N then "\\"%string
  else if (n =? 34)%N then String "\" (String dquote EmptyString)
  else if (n =? 8)%N then "\b"%string
  else if (n =? 12)%N then "\f"%string
  else if (n =? 10)%N then "\n"%string
  else if (n =? 13)%N then "\r"%string
  else if (n =? 9)%N then "\t"%string
  else if ((32 <=? n) && (n <=? 126))%N then String c EmptyString
  else ("\u00" ++ hex2 n)%string.

Fixpoint json_escape (s : string) : string :=
  match s with
  | EmptyString => EmptyString
  | String c rest => (json_escape_char c ++ json_escape rest)%string
  end.

Definition json_quote (s : string) : string :=
  (String dquote (json_escape s) ++ String dquote EmptyString)%string.

(** [json.dumps(v)] with the default separators and [ensure_ascii]. *)
Fixpoint json_dumps (v : pyval) : string :=
  match v with
  | PNone => "null"
  | PBool true => "true"
  | PBool false => "false"
  | PInt n => decimal n
  | PStr s => json_quote s
  | PList xs => ("[" ++ join ", " (map json_dumps xs) ++ "]")%string
  | PDict items =>
      ("{" ++ join ", "
         (map (fun kv => (json_quote (fst kv) ++ ": " ++ json_dumps (snd kv))%string)
              items) ++ "}")%string
  end.

(** [str.isprintable] on a code point below 256. *)
Definition printable (n : N) : bool :=
  ((32 <=? n) && (n <=? 126) || (161 <=? n) && negb (n =? 173))%N.

Fixpoint contains_char (c : ascii) (s : string) : bool :=
  match s with
  | EmptyString => false
  | String c' rest => Ascii.eqb c c' || contains_char c rest
  end.

Definition repr_char (quote : ascii) (c : ascii) : string :=
  let n := N_of_ascii c in
  if (n =? 92)%N then "\\"%string
  else if Ascii.eqb c quote then String "\" (String c EmptyString)
  else if (n =? 9)%N then "\t"%string
  else if (n =? 10)%N then "\n"%string
  else if (n =? 13)%N then "\r"%string
  else if printable n then String c EmptyString
  else ("\x" ++ hex2 n)%string.

Fixpoint repr_chars (quote : ascii) (s : string) : string :=
  match s with
  | EmptyString => EmptyString
  | String c rest => (repr_char quote c ++ repr_chars quote rest)%string
  end.

(** [repr(s)] of a str: single quotes unless the text has one and no double
    quote. *)
Definition repr_str (s : string) : string :=
  let quote :=
    if contains_char "'" s && negb (contains_char dquote s) then dquote
    else "'"%char in
  (String quote (repr_chars quote s) ++ String quote EmptyString)%string.

Fixpoint py_repr (v : pyval) : string :=
  match v with
  | PNone => "None"
  | PBool true => "True"
  | PBool false => "False"
  | PInt n => decimal n
  | PStr s => repr_str s
  | PList xs => ("[" ++ join ", " (map py_repr xs) ++ "]")%string
  | PDict items =>
      ("{" ++ join ", "
         (map (fun kv => (repr_str (fst kv) ++ ": " ++ py_repr (snd kv))%string)
              items) ++ "}")%string
  end.

(** [str(v)], also what an f-string does to [v]. *)
Definition py_str (v : pyval) : string :=
  match v with
  | PStr s => s
  | _ => py_repr v
  end.

(** *** Dates *)

(** [count] zeros in front of [s]. *)
Fixpoint zeros (count : nat) (s : string) : string :=
  match count with
  | O => s
  | S c => String "0" (zeros c s)
  end.

(** [n] in decimal, left-padded with zeros to [width] digits ([%0<width>d]
    for a natural number). *)
Definition digits (width : nat) (n : Z) : string :=
  let s := decimal n in
  zeros (width - String.length s) s.

(** Proleptic Gregorian date of a day number counted from 1970-01-01. *)
Definition civil_from_days (days : Z) : Z * Z * Z :=
  let z := days + 719468 in
  let era := z / 146097 in
  let doe := z - era * 146097 in
  let yoe := (doe - doe / 1460 + doe / 36524 - doe / 146096) / 365 in
  let doy := doe - (365 * yoe + yoe / 4 - yoe / 100) in
  let mp := (5 * doy + 2) / 153 in
  let d := doy - (153 * mp + 2) / 5 + 1 in
  let m := if mp <? 10 then mp + 3 else mp - 9 in
  let y := yoe + era * 400 + (if m <=? 2 then 1 else 0) in
  (y, m, d).

(** [datetime.isoformat()] of the UTC datetime that lies [us] microseconds
    after the epoch: the fraction is printed only when it is not zero. *)
Definition isoformat (us : Z) : string :=
  let secs := us / 1000000 in
  let frac := us mod 1000000 in
  let days := secs / 86400 in
  let sod := secs mod 86400 in
  let '(y, m, d) := civil_from_days days in
  let fraction := if frac =? 0 then EmptyString else ("." ++ digits 6 frac)%string in
  (digits 4 y ++ "-" ++ digits 2 m ++ "-" ++ digits 2 d ++ "T"
   ++ digits 2 (sod / 3600) ++ ":" ++ digits 2 ((sod mod 3600) / 60) ++ ":"
   ++ digits 2 (sod mod 60) ++ fraction)%string.

(** Microseconds of 0001-01-01T00:00:00 and of 10000-01-01T00:00:00. *)
Definition min_datetime_us : Z := -62135596800 * 1000000.
Definition end_datetime_us : Z := 253402300800 * 1000000.

(** [datetime.utcfromtimestamp(ms / 1000)] for a value [ms]: the quotient
    needs a number ([bool] counts as one), and the date must fall in the years
    1..9999.  The result is the microsecond count [ms * 1000]; CPython rounds
    the float quotient to the nearest microsecond, which is this count for
    every millisecond value within 2^33 seconds of the epoch (the years 1698
    to 2242). *)
Definition utcfromtimestamp_ms (ms : pyval) : result Z :=
  let of_int (n : Z) :=
    let us := n * 1000 in
    if (min_datetime_us <=? us) && (us <? end_datetime_us) then Ok us
    else Raise ValueError in
  match ms with
  | PInt n => of_int n
  | PBool b => of_int (if b then 1 else 0)
  | _ => Raise TypeError
  end.

End Py.

(** ** [CDCEvent]: the parsed change event and its projection to a row *)

Module CDC.
Import Py.

Local Notation "x <- e ;; k" := (rbind e (fun x => k))
  (at level 61, e at next level, right associativity, only parsing).

Local Open Scope string_scope.
Local Open Scope Z_scope.

(** The dataclass performs no validation: every field holds whatever value the
    payload had. *)
Record CDCEvent : Type := {
  table_name : pyval;
  operation : pyval;
  before : pyval;
  after : pyval;
  timestamp_ms : pyval;
  source_db : string
}.

(** A BigQuery row, a [dict[str, Any]] in insertion order. *)
Definition row : Type := list (string * pyval).

(** [row[k] = v]. *)
Fixpoint row_set (r : row) (k : string) (v : pyval) : row :=
  match r with
  | [] => [(k, v)]
  | (k', v') :: rest =>
      if String.eqb k' k then (k', v) :: rest else (k', v') :: row_set rest k v
  end.

(** [row[k]], when the key is there. *)
Definition row_get (r : row) (k : string) : option pyval := dict_lookup r k.

Definition from_debezium (payload : pyval) : result CDCEvent :=
  source <- py_get payload "source" (PDict []) ;;
  table <- py_get source "table" (PStr "unknown") ;;
  op <- py_get payload "op" (PStr "?") ;;
  b <- py_get payload "before" PNone ;;
  a <- py_get payload "after" PNone ;;
  ts <- py_get payload "ts_ms" (PInt 0) ;;
  Ok {| table_name := table; operation := op; before := b; after := a;
        timestamp_ms := ts; source_db := "ecommerce" |}.

Definition operation_labels : list (string * string) :=
  [("c", "INSERT"); ("u", "UPDATE"); ("d", "DELETE"); ("r", "SNAPSHOT")].

Fixpoint label_lookup (table : list (string * string)) (op : pyval) : string :=
  match table with
  | [] => "UNKNOWN"
  | (code, label) :: rest =>
      if py_eqb (PStr code) op then label else label_lookup rest op
  end.

(** The property [operation_label]: a dict lookup, which hashes the
    operation first. *)
Definition operation_label (e : CDCEvent) : result string :=
  if hashable (operation e) then Ok (label_lookup operation_labels (operation e))
  else Raise TypeError.

(** [v.items()]: only a dict has it. *)
Definition py_items (v : pyval) : result (list (string * pyval)) :=
  match v with
  | PDict items => Ok items
  | _ => Raise AttributeError
  end.

(** [json.dumps(v) if v else None]. *)
Definition dumps_if_truthy (v : pyval) : pyval :=
  if truthy v then PStr (json_dumps v) else PNone.

(** The loop that flattens the after image into [col_<key>] columns. *)
Definition flatten_after (items : list (string * pyval)) (r : row) : row :=
  fold_left
    (fun acc kv =>
       row_set acc ("col_" ++ fst kv)
         (match snd kv with PNone => PNone | v => PStr (py_str v) end))
    items r.

(** A method that reads [datetime.utcnow()]: it is given the clock, as the
    function from the number of earlier readings to the reading, and that
    number, and returns the number of readings made so far with its result. *)
Definition Clocked (A : Type) : Type := (nat -> Z) -> nat -> result A * nat.

(** The dict literal of [to_bigquery_row]. *)
Definition audit_columns (e : CDCEvent) (label : string) (us now : Z) : row :=
  [("cdc_table", table_name e);
   ("cdc_operation", PStr label);
   ("cdc_timestamp", PStr (isoformat us));
   ("before_data", dumps_if_truthy (before e));
   ("after_data", dumps_if_truthy (after e));
   ("raw_payload", PStr (json_dumps (py_or (py_or (after e) (before e)) (PDict []))));
   ("ingested_at", PStr (isoformat now))].

(** [to_bigquery_row]: the clock is read once, after the other audit columns
    have been computed. *)
Definition to_bigquery_row (e : CDCEvent) : Clocked row :=
  fun utcnow reads =>
    match (label <- operation_label e ;;
           us <- utcfromtimestamp_ms (timestamp_ms e) ;;
           Ok (label, us)) with
    | Raise x => (Raise x, reads)
    | Ok (label, us) =>
        let r := audit_columns e label us (utcnow reads) in
        (if truthy (after e) then
           items <- py_items (after e) ;;
           Ok (flatten_after items r)
         else Ok r,
         S reads)
    end.

(** *** The payloads that parse and project *)

(** [payload.get(k, default)] for a payload that is a dict. *)
Definition field (payload : pyval) (k : string) (default : pyval) : pyval :=
  match payload with
  | PDict items =>
      match dict_lookup items k with Some x => x | None => default end
  | _ => default
  end.

Definition is_dict (v : pyval) : bool :=
  match v with PDict _ => true | _ => false end.

(** Millisecond values [datetime.utcfromtimestamp] accepts: the integers whose
    date lies in the years 1..9999.  A JSON number written with a fraction or
    an exponent is a float, which line 83 divides as well; [pyval] has no
    float, so this is a sufficient condition, not the whole domain. *)
Definition timestamp_ok (ts : pyval) : bool :=
  let in_range (n : Z) :=
    (min_datetime_us <=? n * 1000) && (n * 1000 <? end_datetime_us) in
  match ts with
  | PInt n => in_range n
  | PBool b => in_range (if b then 1 else 0)
  | _ => false
  end.

(** The table name [from_debezium] gives a payload. *)
Definition table_of (payload : pyval) : pyval :=
  field (field payload "source" (PDict [])) "table" (PStr "unknown").

(** Envelopes on which parsing followed by projection returns a row: a
    JSON object whose [source], when there, is an object, whose [op] is
    hashable, whose [ts_ms], when there, is an integer in datetime's range,
    and whose [after] is an object or falsy.  The condition is sufficient; a
    payload whose [ts_ms] is a float lies outside [pyval]. *)
Definition valid_envelope (payload : pyval) : bool :=
  is_dict payload
  && is_dict (field payload "source" (PDict []))
  && hashable (field payload "op" (PStr "?"))
  && timestamp_ok (field payload "ts_ms" (PInt 0))
  && (negb (truthy (field payload "after" PNone))
      || is_dict (field payload "after" PNone)).

(** The operation code is one of the four keys of [operation_labels]. *)
Definition known_operation (op : pyval) : bool :=
  py_eqb (PStr "c") op || py_eqb (PStr "u") op
  || py_eqb (PStr "d") op || py_eqb (PStr "r") op.

(** The row [to_bigquery_row] builds from an event whose label and timestamp
    are computed, given the clock reading [now]. *)
Definition projected (e : CDCEvent) (us now : Z) : row :=
  let r := audit_columns e (label_lookup operation_labels (operation e)) us now in
  match after e with
  | PDict items => flatten_after items r
  | _ => r
  end.

(** Parsing followed by projection, as the handler chains them. *)
Definition parse_project (payload : pyval) : Clocked row :=
  fun clock reads =>
    match from_debezium payload with
    | Ok e => to_bigquery_row e clock reads
    | Raise x => (Raise x, reads)
    end.

(** *** The payloads that raise *)

(** A JSON value that is no number: null, a string, an array or an object.
    Line 83 divides [timestamp_ms] by 1000, which raises [TypeError] on each
    of them. *)
Definition not_a_number (v : pyval) : bool :=
  match v with
  | PNone | PStr _ | PList _ | PDict _ => true
  | PBool _ | PInt _ => false
  end.

(** An integer whose date lies outside the years 1..9999:
    [datetime.utcfromtimestamp] raises on it. *)
Definition out_of_range (ts : pyval) : bool :=
  match ts with
  | PInt _ | PBool _ => negb (timestamp_ok ts)
  | _ => false
  end.

(** The payload is an object that has a [ts_ms], and it is no number. *)
Definition timestamp_not_number (payload : pyval) : bool :=
  match payload with
  | PDict items =>
      match dict_lookup items "ts_ms" with
      | Some ts => not_a_number ts
      | None => false
      end
  | _ => false
  end.

(** Shapes on which parsing followed by projection raises, one disjunct per
    raising line: [payload.get] on a value that is no object (58),
    [source.get] on a source that is no object (60), the label lookup on an
    unhashable [op] (69), the division of a [ts_ms] that is no number (83),
    [utcfromtimestamp] out of range (82), [after.items()] on a truthy value
    that is no object (93). *)
Definition raising_envelope (payload : pyval) : bool :=
  negb (is_dict payload)
  || negb (is_dict (field payload "source" (PDict [])))
  || negb (hashable (field payload "op" (PStr "?")))
  || not_a_number (field payload "ts_ms" (PInt 0))
  || out_of_range (field payload "ts_ms" (PInt 0))
  || (truthy (field payload "after" PNone)
      && negb (is_dict (field payload "after" PNone))).

End CDC.

(** ** The engine: sink writer, buffers, flush policy, message handler *)

Module Engine.
Import Py CDC.

Local Open Scope string_scope.
Local Open Scope Z_scope.

(** *** Python dicts with hashable keys, in insertion order *)

Definition pydict (V : Type) : Type := list (pyval * V).

Fixpoint pd_get {V} (d : pydict V) (k : pyval) : option V :=
  match d with
  | [] => None
  | (k', v) :: rest => if py_eqb k' k then Some v else pd_get rest k
  end.

(** [d[k] = v]: an existing key keeps its place (and its key object). *)
Fixpoint pd_set {V} (d : pydict V) (k : pyval) (v : V) : pydict V :=
  match d with
  | [] => [(k, v)]
  | (k', v') :: rest =>
      if py_eqb k' k then (k', v) :: rest else (k', v') :: pd_set rest k v
  end.

(** *** Objects *)

Record CDCPipelineConfig : Type := {
  project_id : string;
  subscription_id : string;
  dataset_id : string;
  batch_size : Z;
  flush_interval_sec : float;
  max_outstanding_messages : Z;
  ack_deadline_sec : Z
}.

(** The dataclass defaults, with the environment variables unset. *)
Definition default_config : CDCPipelineConfig := {|
  project_id := "local-dev";
  subscription_id := "cdc-events-sub";
  dataset_id := "raw";
  batch_size := 100;
  flush_interval_sec := 5%float;
  max_outstanding_messages := 1000;
  ack_deadline_sec := 60
|}.

Record BigQueryCDCSink : Type := {
  sink_project_id : string;
  sink_dataset_id : string;
  _table_schemas : pydict bool
}.

Record CDCRealtimePipeline : Type := {
  config : CDCPipelineConfig;
  sink : BigQueryCDCSink;
  _buffer : pydict (list row);
  _buffer_count : Z;
  _last_flush_time : float;
  _running : bool;
  _total_processed : Z
}.

(** The body of a Pub/Sub message as
    [json.loads(message.data.decode("utf-8"))] sees it. *)
Inductive body : Type :=
| NotUtf8
| NotJson
| Json (v : pyval).

Record Message : Type := {
  message_id : nat;
  data : body
}.

(** What the handler tells the bus about a message. *)
Inductive bus_call : Type :=
| Ack (id : nat)
| Nack (id : nat).

Inductive log_level : Type := Info | Error.

Definition log_record : Type := (log_level * string)%type.

(** A request made to the BigQuery client. *)
Inductive client_call : Type :=
| CreateTable (table_id : string)
| InsertRowsJson (table_id : string) (rows : list row).

(** The outside world the engine reads: the two clocks, by number of earlier
    readings, and the BigQuery client's answers, by number of earlier
    requests.  [create_table] answers [false] when the client raises;
    [insert_rows_json] returns the client's list of per-row errors or
    raises. *)
Record Env : Type := {
  time_time : nat -> float;
  utcnow : nat -> Z;
  create_table : nat -> string -> bool;
  insert_rows_json : nat -> string -> list row -> result (list pyval)
}.

Record World : Type := {
  self : CDCRealtimePipeline;
  log : list log_record;
  trace : list client_call;
  bus : list bus_call;
  time_reads : nat;
  utc_reads : nat
}.

(** *** World updates *)

Definition upd_self (f : CDCRealtimePipeline -> CDCRealtimePipeline) (w : World)
  : World :=
  {| self := f (self w); log := log w; trace := trace w; bus := bus w;
     time_reads := time_reads w; utc_reads := utc_reads w |}.

Definition add_log (r : log_record) (w : World) : World :=
  {| self := self w; log := (log w ++ [r])%list; trace := trace w; bus := bus w;
     time_reads := time_reads w; utc_reads := utc_reads w |}.

Definition add_bus (c : bus_call) (w : World) : World :=
  {| self := self w; log := log w; trace := trace w; bus := (bus w ++ [c])%list;
     time_reads := time_reads w; utc_reads := utc_reads w |}.

Definition record_call (c : client_call) (w : World) : World :=
  {| self := self w; log := log w; trace := (trace w ++ [c])%list; bus := bus w;
     time_reads := time_reads w; utc_reads := utc_reads w |}.

Definition tick_time (w : World) : World :=
  {| self := self w; log := log w; trace := trace w; bus := bus w;
     time_reads := S (time_reads w); utc_reads := utc_reads w |}.

Definition set_utc_reads (n : nat) (w : World) : World :=
  {| self := self w; log := log w; trace := trace w; bus := bus w;
     time_reads := time_reads w; utc_reads := n |}.

Definition set_table_schemas (d : pydict bool) (p : CDCRealtimePipeline)
  : CDCRealtimePipeline :=
  {| config := config p;
     sink := {| sink_project_id := sink_project_id (sink p);
                sink_dataset_id := sink_dataset_id (sink p);
                _table_schemas := d |};
     _buffer := _buffer p; _buffer_count := _buffer_count p;
     _last_flush_time := _last_flush_time p; _running := _running p;
     _total_processed := _total_processed p |}.

Definition set_buffer (b : pydict (list row)) (p : CDCRealtimePipeline)
  : CDCRealtimePipeline :=
  {| config := config p; sink := sink p; _buffer := b;
     _buffer_count := _buffer_count p; _last_flush_time := _last_flush_time p;
     _running := _running p; _total_processed := _total_processed p |}.

Definition set_buffer_count (n : Z) (p : CDCRealtimePipeline)
  : CDCRealtimePipeline :=
  {| config := config p; sink := sink p; _buffer := _buffer p;
     _buffer_count := n; _last_flush_time := _last_flush_time p;
     _running := _running p; _total_processed := _total_processed p |}.

Definition set_last_flush_time (t : float) (p : CDCRealtimePipeline)
  : CDCRealtimePipeline :=
  {| config := config p; sink := sink p; _buffer := _buffer p;
     _buffer_count := _buffer_count p; _last_flush_time := t;
     _running := _running p; _total_processed := _total_processed p |}.

Definition set_total_processed (n : Z) (p : CDCRealtimePipeline)
  : CDCRealtimePipeline :=
  {| config := config p; sink := sink p; _buffer := _buffer p;
     _buffer_count := _buffer_count p; _last_flush_time := _last_flush_time p;
     _running := _running p; _total_processed := n |}.

(** *** The monad of methods *)

Definition M (A : Type) : Type := Env -> World -> result A * World.

Definition ret {A} (a : A) : M A := fun _ w => (Ok a, w).

Definition bind {A B} (m : M A) (k : A -> M B) : M B :=
  fun env w =>
    match m env w with
    | (Ok a, w') => k a env w'
    | (Raise e, w') => (Raise e, w')
    end.

Definition raise {A} (e : exn) : M A := fun _ w => (Raise e, w).

(** [try: body except ...: handler]; every modelled exception is an
    [Exception]. *)
Definition try_except {A} (body : M A) (handler : exn -> M A) : M A :=
  fun env w =>
    match body env w with
    | (Ok a, w') => (Ok a, w')
    | (Raise e, w') => handler e env w'
    end.

Definition lift {A} (r : result A) : M A := fun _ w => (r, w).

Definition get_self : M CDCRealtimePipeline := fun _ w => (Ok (self w), w).

Definition modify_self (f : CDCRealtimePipeline -> CDCRealtimePipeline) : M unit :=
  fun _ w => (Ok tt, upd_self f w).

Definition logger (level : log_level) (event : string) : M unit :=
  fun _ w => (Ok tt, add_log (level, event) w).

Definition tell_bus (c : bus_call) : M unit :=
  fun _ w => (Ok tt, add_bus c w).

(** [time.time()]. *)
Definition read_time : M float :=
  fun env w => (Ok (time_time env (time_reads w)), tick_time w).

(** A method that reads [datetime.utcnow()], run on the world's clock. *)
Definition clocked {A} (c : Clocked A) : M A :=
  fun env w =>
    (fst (c (utcnow env) (utc_reads w)),
     set_utc_reads (snd (c (utcnow env) (utc_reads w))) w).

(** [self.client.create_table(table, exists_ok=True)]. *)
Definition client_create_table (table_id : string) : M unit :=
  fun env w =>
    (if create_table env (List.length (trace w)) table_id then Ok tt
     else Raise SinkError,
     record_call (CreateTable table_id) w).

(** [self.client.insert_rows_json(table_id, rows)]. *)
Definition client_insert_rows_json (table_id : string) (rows : list row)
  : M (list pyval) :=
  fun env w =>
    (insert_rows_json env (List.length (trace w)) table_id rows,
     record_call (InsertRowsJson table_id rows) w).

Local Notation "x <- e ;; k" := (bind e (fun x => k))
  (at level 61, e at next level, right associativity, only parsing).
Local Notation "e ;; k" := (bind e (fun _ => k))
  (at level 61, right associativity, only parsing).

(** *** [BigQueryCDCSink] *)

Definition table_id_of (s : BigQueryCDCSink) (table : pyval) : string :=
  sink_project_id s ++ "." ++ sink_dataset_id s ++ ".cdc_" ++ py_str table.

(** [ensure_table_exists]: the table is created once per table name; a failure
    of the client is logged and raised again. *)
Definition ensure_table_exists (table : pyval) : M string :=
  p <- get_self ;;
  let table_id := table_id_of (sink p) table in
  if negb (hashable table) then raise TypeError
  else
    match pd_get (_table_schemas (sink p)) table with
    | Some _ => ret table_id
    | None =>
        try_except
          (client_create_table table_id ;;
           modify_self (fun q => set_table_schemas
                                   (pd_set (_table_schemas (sink q)) table true) q) ;;
           logger Info "Table ensured")
          (fun e => logger Error "Failed to create table" ;; raise e) ;;
        ret table_id
    end.

(** [write_batch]: returns the number of rows the client did not report an
    error for. *)
Definition write_batch (table : pyval) (rows : list row) : M Z :=
  match rows with
  | [] => ret 0
  | _ =>
      table_id <- ensure_table_exists table ;;
      errors <- client_insert_rows_json table_id rows ;;
      match errors with
      | _ :: _ =>
          logger Error "BigQuery insert errors" ;;
          ret (Z.of_nat (List.length rows) - Z.of_nat (List.length errors))
      | [] =>
          logger Info "Batch written to BigQuery" ;;
          ret (Z.of_nat (List.length rows))
      end
  end.

(** *** [CDCRealtimePipeline] *)

(** [__init__]: empty buffers, started at [now = time.time()]. *)
Definition init_pipeline (cfg : CDCPipelineConfig) (now : float)
  : CDCRealtimePipeline :=
  {| config := cfg;
     sink := {| sink_project_id := project_id cfg;
                sink_dataset_id := dataset_id cfg;
                _table_schemas := [] |};
     _buffer := []; _buffer_count := 0; _last_flush_time := now;
     _running := true; _total_processed := 0 |}.

(** [_should_flush]: the clock is read only when the size test fails. *)
Definition _should_flush : M bool :=
  p <- get_self ;;
  if (batch_size (config p) <=? _buffer_count p)%Z then ret true
  else
    now <- read_time ;;
    if (flush_interval_sec (config p) <=? now - _last_flush_time p)%float
    then ret true
    else ret false.

(** The loop of [_flush_all_buffers] over [self._buffer.items()]. *)
Fixpoint write_all (items : pydict (list row)) (total_written : Z) : M Z :=
  match items with
  | [] => ret total_written
  | (table, rows) :: rest =>
      written <- write_batch table rows ;;
      write_all rest (total_written + written)
  end.

(** Lines 264-276 of [_flush_all_buffers]: every table's rows are handed to
    the sink and the total is added to the processed count. *)
Definition flush_write (items : pydict (list row)) : M unit :=
  total_written <- write_all items 0 ;;
  modify_self (fun q => set_total_processed (_total_processed q + total_written) q) ;;
  logger Info "Buffer flushed".

(** Lines 278-280: the buffers are dropped and the counters reset. *)
Definition flush_reset : M unit :=
  modify_self (set_buffer []) ;;
  modify_self (set_buffer_count 0) ;;
  now <- read_time ;;
  modify_self (set_last_flush_time now).

Definition _flush_all_buffers : M unit :=
  p <- get_self ;;
  match _buffer p with
  | [] => ret tt
  | items => flush_write items ;; flush_reset
  end.

(** [json.loads(message.data.decode("utf-8"))]. *)
Definition json_loads (m : Message) : result pyval :=
  match data m with
  | NotUtf8 => Raise UnicodeDecodeError
  | NotJson => Raise JSONDecodeError
  | Json v => Ok v
  end.

(** The buffer after [self._buffer[table].append(r)], the list being created
    first when the table has none. *)
Definition appended (b : pydict (list row)) (table : pyval) (r : row)
  : pydict (list row) :=
  match pd_get b table with
  | None => pd_set b table [r]
  | Some rows => pd_set b table (rows ++ [r])%list
  end.

(** Lines 233-236: the append to the table's buffer.  The membership test
    hashes the table name. *)
Definition buffer_append (table : pyval) (r : row) : M unit :=
  if negb (hashable table) then raise TypeError
  else
    modify_self (fun q => set_buffer (appended (_buffer q) table r) q) ;;
    modify_self (fun q => set_buffer_count (_buffer_count q + 1) q).

(** Lines 227-238 of [_handle_message]: parse, project, buffer, ack. *)
Definition buffer_message (m : Message) : M unit :=
  payload <- lift (json_loads m) ;;
  cdc_event <- lift (from_debezium payload) ;;
  r <- clocked (to_bigquery_row cdc_event) ;;
  buffer_append (table_name cdc_event) r ;;
  tell_bus (Ack (message_id m)).

(** Lines 241-242. *)
Definition flush_if_due : M unit :=
  due <- _should_flush ;;
  if due then _flush_all_buffers else ret tt.

(** The two [except] clauses. *)
Definition on_exception (m : Message) (e : exn) : M unit :=
  match e with
  | JSONDecodeError =>
      logger Error "Invalid JSON in CDC message" ;;
      tell_bus (Nack (message_id m))
  | _ =>
      logger Error "Error processing CDC message" ;;
      tell_bus (Nack (message_id m))
  end.

Definition _handle_message (m : Message) : M unit :=
  try_except (buffer_message m ;; flush_if_due) (on_exception m).

(** *** Worlds and conditions the properties speak of *)

(** Python's [a >= b] on floats. *)
Definition float_ge (a b : float) : Prop := (b <=? a)%float = true.

(** The message body is not JSON text. *)
Definition malformed (m : Message) : bool :=
  match data m with
  | Json _ => false
  | _ => true
  end.

(** The table is known to the sink, or the client creates it at the next
    request. *)
Definition table_ready (env : Env) (w : World) (table : pyval) : bool :=
  match pd_get (_table_schemas (sink (self w))) table with
  | Some _ => true
  | None =>
      create_table env (List.length (trace w)) (table_id_of (sink (self w)) table)
  end.

(** The world after [ensure_table_exists] has returned. *)
Definition ensured (table : pyval) (w : World) : World :=
  match pd_get (_table_schemas (sink (self w))) table with
  | Some _ => w
  | None =>
      add_log (Info, "Table ensured")
        (upd_self (fun q => set_table_schemas
                              (pd_set (_table_schemas (sink q)) table true) q)
           (record_call (CreateTable (table_id_of (sink (self w)) table)) w))
  end.

(** What [write_batch] logs for the client's list of errors. *)
Definition batch_log (errors : list pyval) : log_record :=
  match errors with
  | [] => (Info, "Batch written to BigQuery")
  | _ => (Error, "BigQuery insert errors")
  end.

(** The client never raises, whatever errors it reports. *)
Definition sink_answers (env : Env) : Prop :=
  (forall n id, create_table env n id = true)
  /\ (forall n id rows, exists errors, insert_rows_json env n id rows = Ok errors).

(** Every key of the buffer dict is hashable, as dict keys are. *)
Definition hashable_keys (b : pydict (list row)) : Prop :=
  Forall (fun kv => hashable (fst kv) = true) b.

(** What the sink writer leaves alone: the buffers, the counters, the running
    flag, the configuration, the bus and the clocks. *)
Definition same_engine (w w' : World) : Prop :=
  _buffer (self w') = _buffer (self w)
  /\ _buffer_count (self w') = _buffer_count (self w)
  /\ _last_flush_time (self w') = _last_flush_time (self w)
  /\ _running (self w') = _running (self w)
  /\ _total_processed (self w') = _total_processed (self w)
  /\ config (self w') = config (self w)
  /\ bus w' = bus w
  /\ time_reads w' = time_reads w
  /\ utc_reads w' = utc_reads w.

(** The flush, once its writes have returned [total] in world [w1]. *)
Definition flushed (env : Env) (total : Z) (w1 : World) : World :=
  upd_self (set_last_flush_time (time_time env (time_reads w1)))
    (tick_time
       (upd_self (set_buffer_count 0)
          (upd_self (set_buffer [])
             (add_log (Info, "Buffer flushed")
                (upd_self (fun q => set_total_processed (_total_processed q + total) q)
                   w1))))).

(** The world after lines 227-238 have run without raising on a message whose
    row [r] goes to [table]: the clock was read once, the row appended, the
    count raised by one and the message acknowledged. *)
Definition accepted (m : Message) (table : pyval) (r : row) (w : World) : World :=
  add_bus (Ack (message_id m))
    (upd_self (fun q => set_buffer_count (_buffer_count q + 1) q)
       (upd_self (fun q => set_buffer (appended (_buffer q) table r) q)
          (set_utc_reads (S (utc_reads w)) w))).

(** The world after an [except] clause has run from world [w]. *)
Definition rejected (m : Message) (event : string) (w : World) : World :=
  add_bus (Nack (message_id m)) (add_log (Error, event) w).

End Engine.

(** ** Appends racing a flush

    The bus client calls [_handle_message] from a pool of threads while the
    loop of [run] flushes from the main thread, and the source takes no lock.
    A schedule lists the steps of these threads in the order they happen.  A
    flush is two steps, its writes, which block on the network, and its
    reset; an append is one step.  The program has finer interleavings too;
    every schedule here is one of its executions. *)

Module Race.
Import Py CDC Engine.

Inductive action : Type :=
| Append (table : pyval) (r : row)
| FlushWrite (flush : nat)
| FlushReset (flush : nat).

(** The world, and the flushes that have written and not yet reset. *)
Definition state : Type := (World * list nat)%type.

Definition is_pending (flush : nat) (pending : list nat) : bool :=
  existsb (Nat.eqb flush) pending.

Definition step (env : Env) (a : action) (st : state) : state :=
  let '(w, pending) := st in
  match a with
  | Append table r => (snd (buffer_append table r env w), pending)
  | FlushWrite flush =>
      match _buffer (self w) with
      | [] => (w, pending)
      | items =>
          match flush_write items env w with
          | (Ok _, w') => (w', flush :: pending)
          | (Raise _, w') => (w', pending)
          end
      end
  | FlushReset flush =>
      if is_pending flush pending
      then (snd (flush_reset env w),
            filter (fun f => negb (Nat.eqb flush f)) pending)
      else (w, pending)
  end.

Definition run (env : Env) (schedule : list action) (st : state) : state :=
  fold_left (fun acc a => step env a acc) schedule st.

(** Appends and flushes one at a time, each run to its end. *)
Inductive op : Type :=
| OpAppend (table : pyval) (r : row)
| OpFlush.

Definition serial_step (env : Env) (o : op) (w : World) : World :=
  match o with
  | OpAppend table r => snd (buffer_append table r env w)
  | OpFlush => snd (_flush_all_buffers env w)
  end.

Definition run_serial (env : Env) (ops : list op) (w : World) : World :=
  fold_left (fun acc o => serial_step env o acc) ops w.

(** The schedule of a serial run: the [n]-th operation, when a flush, is flush
    number [n]. *)
Fixpoint schedule_of (n : nat) (ops : list op) : list action :=
  match ops with
  | [] => []
  | OpAppend table r :: rest => Append table r :: schedule_of (S n) rest
  | OpFlush :: rest => FlushWrite n :: FlushReset n :: schedule_of (S n) rest
  end.

(** Rows handed to the sink so far, over all requests. *)
Fixpoint rows_sunk (calls : list client_call) : Z :=
  match calls with
  | [] => 0
  | InsertRowsJson _ rows :: rest => Z.of_nat (List.length rows) + rows_sunk rest
  | CreateTable _ :: rest => rows_sunk rest
  end.

(** Rows waiting in the buffers. *)
Fixpoint rows_buffered (b : pydict (list row)) : Z :=
  match b with
  | [] => 0
  | (_, rows) :: rest => Z.of_nat (List.length rows) + rows_buffered rest
  end.

Fixpoint appends (schedule : list action) : Z :=
  match schedule with
  | [] => 0
  | Append _ _ :: rest => 1 + appends rest
  | _ :: rest => appends rest
  end.

Fixpoint serial_appends (ops : list op) : Z :=
  match ops with
  | [] => 0
  | OpAppend _ _ :: rest => 1 + serial_appends rest
  | OpFlush :: rest => serial_appends rest
  end.

(** Every table an operation appends to is hashable. *)
Definition hashable_ops (ops : list op) : Prop :=
  Forall (fun o => match o with
                   | OpAppend table _ => hashable table = true
                   | OpFlush => True
                   end) ops.

End Race.

(** ** [CDCRealtimePipeline.run]: the loop, the signals and the shutdown

    While the main thread sleeps for a second the subscriber's threads hand
    messages to the callback, and a termination signal may arrive.  A [Tick]
    says what one such second brings; the callbacks are taken one after the
    other, then the signal handler.  The schedule is finite: a loop that is
    still turning when it ends has no result. *)

Module Runner.
Import Py CDC Engine Race.

Local Open Scope string_scope.
Local Open Scope Z_scope.

Local Notation "x <- e ;; k" := (bind e (fun x => k))
  (at level 61, e at next level, right associativity, only parsing).
Local Notation "e ;; k" := (bind e (fun _ => k))
  (at level 61, right associativity, only parsing).

Record Tick : Type := {
  delivered : list Message;
  signalled : option Z
}.

(** The bus as [run] meets it: what [self.subscriber.subscribe] does, and the
    seconds that follow. *)
Record Subscription : Type := {
  subscribe : result unit;
  ticks : list Tick
}.

Definition set_running (b : bool) (p : CDCRealtimePipeline) : CDCRealtimePipeline :=
  {| config := config p; sink := sink p; _buffer := _buffer p;
     _buffer_count := _buffer_count p; _last_flush_time := _last_flush_time p;
     _running := b; _total_processed := _total_processed p |}.

(** The handler [run] installs for SIGTERM and SIGINT. *)
Definition _shutdown (signum : Z) : M unit :=
  logger Info "Shutdown signal received" ;;
  modify_self (set_running false).

(** The callbacks of one second. *)
Fixpoint deliver (messages : list Message) : M unit :=
  match messages with
  | [] => ret tt
  | m :: rest => _handle_message m ;; deliver rest
  end.

(** [time.sleep(1)], and what happens meanwhile. *)
Definition sleep (t : Tick) : M unit :=
  deliver (delivered t) ;;
  match signalled t with
  | Some signum => _shutdown signum
  | None => ret tt
  end.

(** [while self._running: ...], whose periodic flush is the two lines the
    handler ends with; [None] when the schedule ends with the loop still
    turning. *)
Fixpoint run_loop (schedule : list Tick) : M (option unit) :=
  p <- get_self ;;
  if _running p then
    match schedule with
    | [] => ret None
    | t :: rest =>
        sleep t ;;
        flush_if_due ;;
        run_loop rest
    end
  else ret (Some tt).

(** [run]: an exception of the loop is logged; the final flush and the last
    log line are the [finally] block, which is reached once the loop has
    ended. *)
Definition run (s : Subscription) : M (option unit) :=
  logger Info "Starting CDC pipeline" ;;
  lift (subscribe s) ;;
  ended <- try_except (run_loop (ticks s))
             (fun _ => logger Error "Pipeline error" ;; ret (Some tt)) ;;
  match ended with
  | None => ret None
  | Some _ =>
      _flush_all_buffers ;;
      logger Info "CDC pipeline stopped" ;;
      ret (Some tt)
  end.

(** *** What the properties of the engine speak of *)

(** The [Ack]s sent to the bus. *)
Fixpoint acks (calls : list bus_call) : Z :=
  match calls with
  | [] => 0
  | Ack _ :: rest => 1 + acks rest
  | Nack _ :: rest => acks rest
  end.

(** The insert requests made to the client, in order. *)
Fixpoint inserts (calls : list client_call) : list (string * list row) :=
  match calls with
  | [] => []
  | InsertRowsJson id rows :: rest => (id, rows) :: inserts rest
  | CreateTable _ :: rest => inserts rest
  end.

(** No table of the buffer has an empty list of rows. *)
Definition no_empty_buffer (b : pydict (list row)) : Prop :=
  Forall (fun kv => snd kv <> []) b.

(** The client creates every table and accepts every row. *)
Definition sink_accepts_all (env : Env) : Prop :=
  (forall n id, create_table env n id = true)
  /\ (forall n id rows, insert_rows_json env n id rows = Ok []).

(** The batch a flush sends for one table of the buffer. *)
Definition batch_of (s : BigQueryCDCSink) (kv : pyval * list row)
  : string * list row :=
  (table_id_of s (fst kv), snd kv).

(** What the engine keeps true of its buffers: hashable table names, no
    table without a row, and a count that is the number of buffered rows. *)
Definition engine_ok (w : World) : Prop :=
  hashable_keys (_buffer (self w))
  /\ no_empty_buffer (_buffer (self w))
  /\ _buffer_count (self w) = rows_buffered (_buffer (self w)).

(** The rows in the sink and in the buffers, less the messages acknowledged. *)
Definition unacknowledged (w : World) : Z :=
  rows_sunk (trace w) + rows_buffered (_buffer (self w)) - acks (bus w).

(** By how much the processed count exceeds the rows handed to the sink. *)
Definition overcount (w : World) : Z :=
  _total_processed (self w) - rows_sunk (trace w).

(** A second without a signal. *)
Definition unsignalled (t : Tick) : Prop := signalled t = None.

(** The [col_<key>] column of one item of the after image. *)
Definition flat_column (kv : string * pyval) : string * pyval :=
  ("col_" ++ fst kv,
   match snd kv with PNone => PNone | v => PStr (py_str v) end).

(** The items of a value that is a dict; none otherwise. *)
Definition items_of (v : pyval) : list (string * pyval) :=
  match v with
  | PDict items => items
  | _ => []
  end.

End Runner.

(** ** Sample inputs *)

Module Samples.
Import Py CDC Engine Race.

Local Open Scope string_scope.
Local Open Scope Z_scope.

(** The insert of the module's tests. *)
Definition order_created : pyval :=
  PDict [("before", PNone);
         ("after", PDict [("order_id", PInt 1); ("order_status", PStr "PENDING")]);
         ("source", PDict [("table", PStr "orders"); ("db", PStr "ecommerce")]);
         ("op", PStr "c");
         ("ts_ms", PInt 1700000000000)].

(** An update whose after image is the empty object. *)
Definition order_emptied : pyval :=
  PDict [("before", PDict [("order_id", PInt 1)]);
         ("after", PDict []);
         ("source", PDict [("table", PStr "orders")]);
         ("op", PStr "u");
         ("ts_ms", PInt 1700000000000)].

(** A record without an event time: [ts_ms] is 0. *)
Definition order_at_zero : CDCEvent :=
  {| table_name := PStr "orders"; operation := PStr "c"; before := PNone;
     after := PDict [("order_id", PInt 1)]; timestamp_ms := PInt 0;
     source_db := "ecommerce" |}.

(** A clock that stands at 2023-11-14T22:13:20. *)
Definition clock_2023 : nat -> Z := fun _ => 1700000000000000.


(** An envelope with an unmapped operation code and no [source]. *)
Definition truncate_event : pyval :=
  PDict [("before", PNone);
         ("after", PDict [("order_id", PInt 1)]);
         ("op", PStr "t");
         ("ts_ms", PInt 1700000000000)].

(** Valid JSON with an unmapped operation code and a null [ts_ms]. *)
Definition event_without_time : pyval :=
  PDict [("after", PDict [("order_id", PInt 1)]);
         ("source", PDict [("table", PStr "orders")]);
         ("op", PStr "x");
         ("ts_ms", PNone)].

Definition row_1 : row := [("cdc_table", PStr "orders"); ("col_order_id", PStr "1")].
Definition row_2 : row := [("cdc_table", PStr "orders"); ("col_order_id", PStr "2")].

(** A BigQuery client that accepts every row. *)
Definition sink_accepts : Env :=
  {| time_time := fun _ => 1002%float;
     utcnow := clock_2023;
     create_table := fun _ _ => true;
     insert_rows_json := fun _ _ _ => Ok [] |}.

(** A client that reports an error for the row at [index] of every batch. *)
Definition sink_rejects (index : Z) : Env :=
  {| time_time := fun _ => 1002%float;
     utcnow := clock_2023;
     create_table := fun _ _ => true;
     insert_rows_json := fun _ _ _ =>
       Ok [PDict [("index", PInt index);
                  ("errors", PList [PDict [("reason", PStr "invalid")]])]] |}.

(** A client whose every request raises. *)
Definition sink_down : Env :=
  {| time_time := fun _ => 1002%float;
     utcnow := clock_2023;
     create_table := fun _ _ => false;
     insert_rows_json := fun _ _ _ => Raise SinkError |}.

(** The engine just constructed at time 1000, with the default
    configuration. *)
Definition fresh : World :=
  {| self := init_pipeline default_config 1000%float;
     log := []; trace := []; bus := []; time_reads := 0; utc_reads := 0 |}.

(** The engine holding two rows of [orders]. *)
Definition two_buffered : World :=
  upd_self (fun p => set_buffer_count 2
                       (set_buffer [(PStr "orders", [row_1; row_2])] p)) fresh.

Definition message (id : nat) (b : body) : Message :=
  {| message_id := id; data := b |}.

(** The schedule that loses a row: the second append lands between the writes
    of the flush and its reset. *)
Definition lost_row_schedule : list action :=
  [Append (PStr "orders") row_1; FlushWrite 0;
   Append (PStr "orders") row_2; FlushReset 0].

End Samples.

Module RunSamples.
Import Py CDC Engine Runner Samples.

Local Open Scope string_scope.
Local Open Scope Z_scope.

(** SIGTERM. *)
Definition sigterm : Z := 15.

(** A second in which the insert of the tests is delivered, a quiet second,
    and a second in which SIGTERM arrives. *)
Definition busy_second : Tick :=
  {| delivered := [message 1 (Json order_created)]; signalled := None |}.
Definition quiet_second : Tick := {| delivered := []; signalled := None |}.
Definition last_second : Tick := {| delivered := []; signalled := Some sigterm |}.

(** A subscription that delivers one message and is then told to stop. *)
Definition short_run : Subscription :=
  {| subscribe := Ok tt; ticks := [busy_second; quiet_second; last_second] |}.

(** An update of the order of [order_created]. *)
Definition order_paid : pyval :=
  PDict [("before", PDict [("order_id", PInt 1); ("order_status", PStr "PENDING")]);
         ("after", PDict [("order_id", PInt 1); ("order_status", PStr "PAID")]);
         ("source", PDict [("table", PStr "orders")]);
         ("op", PStr "u");
         ("ts_ms", PInt 1700000001000)].

(** A configuration with a flush interval of two seconds, and the engine
    just constructed with it, at time 1000. *)
Definition brisk_config : CDCPipelineConfig :=
  {| project_id := "local-dev"; subscription_id := "cdc-events-sub";
     dataset_id := "raw"; batch_size := 100; flush_interval_sec := 2%float;
     max_outstanding_messages := 1000; ack_deadline_sec := 60 |}.

Definition idle : World :=
  {| self := init_pipeline brisk_config 1000%float;
     log := []; trace := []; bus := []; time_reads := 0; utc_reads := 0 |}.

(** A configuration that flushes after every row. *)
Definition eager_config : CDCPipelineConfig :=
  {| project_id := "local-dev"; subscription_id := "cdc-events-sub";
     dataset_id := "raw"; batch_size := 1; flush_interval_sec := 5%float;
     max_outstanding_messages := 1000; ack_deadline_sec := 60 |}.

(** The engine just constructed with it, at time 1000. *)
Definition eager : World :=
  {| self := init_pipeline eager_config 1000%float;
     log := []; trace := []; bus := []; time_reads := 0; utc_reads := 0 |}.

(** The engine holding rows of two tables, [orders] first. *)
Definition two_tables : World :=
  upd_self (fun p => set_buffer_count 3
                       (set_buffer [(PStr "orders", [row_1; row_2]);
                                    (PStr "products", [row_1])] p)) fresh.

End RunSamples.

(** * Properties *)

(** ** Parsing and projection *)

Module CDCProps.
Import Py CDC Samples.

Local Open Scope string_scope.
Local Open Scope Z_scope.

Lemma row_get_set_other (r : row) (k k' : string) (v : pyval) :
  String.eqb k k' = false -> row_get (row_set r k v) k' = row_get r k'.
Proof.
  intros Hk. unfold row_get.
  induction r as [ | [k0 v0] rest IH]; cbn.
  - now rewrite Hk.
  - destruct (String.eqb k0 k) eqn:H0; cbn.
    + apply String.eqb_eq in H0. subst k0. now rewrite Hk.
    + destruct (String.eqb k0 k'); [reflexivity | exact IH].
Qed.

(** The flattened columns never overwrite a column whose name does not start
    with [col_]. *)
Lemma row_get_flatten (items : list (string * pyval)) (r : row) (k : string) :
  (forall key, String.eqb ("col_" ++ key) k = false) ->
  row_get (flatten_after items r) k = row_get r k.
Proof.
  intros Hk. unfold flatten_after.
  revert r. induction items as [ | [key v] rest IH]; intros r; cbn.
  - reflexivity.
  - rewrite IH. apply row_get_set_other, Hk.
Qed.

Lemma uint_text_nonempty (d : Decimal.uint) :
  NilZero.string_of_uint d <> EmptyString.
Proof. destruct d; cbn; discriminate. Qed.

Lemma decimal_nonempty (n : Z) : decimal n <> EmptyString.
Proof.
  unfold decimal, NilZero.string_of_int.
  destruct (Z.to_int n) as [d | d].
  - apply uint_text_nonempty.
  - discriminate.
Qed.

(** [json.dumps] never returns the empty text. *)
Lemma json_dumps_nonempty (v : pyval) : json_dumps v <> EmptyString.
Proof.
  destruct v as [ | [ | ] | n | s | xs | items]; cbn; try discriminate.
  apply decimal_nonempty.
Qed.

Lemma from_debezium_dict (items : list (string * pyval)) :
  let payload := PDict items in
  is_dict (field payload "source" (PDict [])) = true ->
  from_debezium payload =
    Ok {| table_name := table_of payload;
          operation := field payload "op" (PStr "?");
          before := field payload "before" PNone;
          after := field payload "after" PNone;
          timestamp_ms := field payload "ts_ms" (PInt 0);
          source_db := "ecommerce" |}.
Proof.
  intros payload Hsrc. unfold from_debezium, table_of.
  subst payload. cbn [py_get rbind field] in *.
  destruct (match dict_lookup items "source" with Some x => x | None => PDict [] end)
    as [ | | | | | src]; try discriminate.
  reflexivity.
Qed.

(** Projection returns when the operation is hashable, the timestamp is in
    range and the after image is an object or falsy; it reads the clock
    once. *)
Lemma to_bigquery_row_ok (e : CDCEvent) (clock : nat -> Z) (reads : nat) (us : Z) :
  hashable (operation e) = true ->
  utcfromtimestamp_ms (timestamp_ms e) = Ok us ->
  negb (truthy (after e)) || is_dict (after e) = true ->
  to_bigquery_row e clock reads = (Ok (projected e us (clock reads)), S reads).
Proof.
  intros Hop Hts Hafter.
  unfold to_bigquery_row, operation_label, projected.
  rewrite Hop, Hts. cbn [rbind].
  destruct (after e) as [ | b | n | s | xs | items]; cbn in *;
    try reflexivity; try discriminate.
  - destruct b; [discriminate | reflexivity].
  - destruct (n =? 0); [reflexivity | discriminate].
  - destruct (String.eqb s ""); [reflexivity | discriminate].
  - destruct xs; [reflexivity | discriminate].
  - destruct items; reflexivity.
Qed.

Lemma timestamp_ok_us (ts : pyval) :
  timestamp_ok ts = true -> exists us, utcfromtimestamp_ms ts = Ok us.
Proof.
  unfold timestamp_ok, utcfromtimestamp_ms.
  destruct ts as [ | b | n | s | xs | items]; try discriminate; intros H.
  - rewrite H. eauto.
  - rewrite H. eauto.
Qed.

(** A valid envelope parses, with the fields [from_debezium] reads, and
    projects. *)
Lemma valid_envelope_projects (payload : pyval) (clock : nat -> Z) (reads : nat) :
  valid_envelope payload = true ->
  exists e us,
    from_debezium payload = Ok e
    /\ table_name e = table_of payload
    /\ operation e = field payload "op" (PStr "?")
    /\ before e = field payload "before" PNone
    /\ after e = field payload "after" PNone
    /\ timestamp_ms e = field payload "ts_ms" (PInt 0)
    /\ utcfromtimestamp_ms (timestamp_ms e) = Ok us
    /\ to_bigquery_row e clock reads = (Ok (projected e us (clock reads)), S reads).
Proof.
  unfold valid_envelope. intros H.
  repeat (apply andb_prop in H; destruct H as [H ?]).
  destruct payload as [ | | | | | items]; try discriminate.
  match goal with Hts : timestamp_ok _ = true |- _ =>
    destruct (timestamp_ok_us _ Hts) as [us Hus] end.
  eexists; exists us.
  split; [apply from_debezium_dict; assumption | ].
  cbn [table_name operation before after timestamp_ms].
  repeat (split; [reflexivity | ]).
  split; [exact Hus | ].
  apply to_bigquery_row_ok; cbn [table_name operation before after timestamp_ms];
    assumption.
Qed.

(** Every other JSON value makes parsing or projection raise. *)
Lemma invalid_envelope_raises (payload : pyval) (clock : nat -> Z) (reads : nat) :
  valid_envelope payload = false ->
  exists x, fst (parse_project payload clock reads) = Raise x.
Proof.
  unfold parse_project. intros H.
  destruct payload as [ | | | | | items]; try (cbn; eauto; fail).
  destruct (is_dict (field (PDict items) "source" (PDict []))) eqn:Hsrc.
  - rewrite (from_debezium_dict items Hsrc).
    unfold valid_envelope in H. rewrite Hsrc in H. cbn [is_dict andb] in H.
    unfold to_bigquery_row, operation_label.
    cbn [table_name operation before after timestamp_ms].
    destruct (hashable (field (PDict items) "op" (PStr "?"))) eqn:Hop;
      [ | cbn; eauto].
    cbn [andb rbind] in *.
    destruct (timestamp_ok (field (PDict items) "ts_ms" (PInt 0))) eqn:Hts.
    + destruct (timestamp_ok_us _ Hts) as [us Hus]. rewrite Hus.
      cbn [andb rbind] in *.
      destruct (field (PDict items) "after" PNone) as [ | b | n | s | xs | it];
        cbn in *; try discriminate.
      * destruct b; [cbn; eauto | discriminate].
      * destruct (n =? 0); [discriminate | cbn; eauto].
      * destruct (String.eqb s ""); [discriminate | cbn; eauto].
      * destruct xs; [discriminate | cbn; eauto].
      * destruct it; discriminate.
    + assert (exists x, utcfromtimestamp_ms (field (PDict items) "ts_ms" (PInt 0))
                        = Raise x) as [x Hx].
      { revert Hts. unfold timestamp_ok, utcfromtimestamp_ms.
        destruct (field (PDict items) "ts_ms" (PInt 0)); eauto;
          intros ->; eauto. }
      rewrite Hx. cbn. eauto.
  - unfold from_debezium. cbn [py_get rbind field] in *.
    destruct (match dict_lookup items "source" with Some x => x | None => PDict [] end);
      try discriminate; cbn; eauto.
Qed.

(** The audit columns of a projected row are those of the dict literal. *)
Lemma projected_get (e : CDCEvent) (us now : Z) (k : string) :
  (forall key, String.eqb ("col_" ++ key) k = false) ->
  row_get (projected e us now) k
  = row_get (audit_columns e (label_lookup operation_labels (operation e)) us now) k.
Proof.
  intros Hk. unfold projected. cbv zeta.
  destruct (after e); try reflexivity.
  now apply row_get_flatten.
Qed.

Lemma raw_payload_of_projected (e : CDCEvent) (us now : Z) :
  row_get (projected e us now) "raw_payload"
  = Some (PStr (json_dumps (py_or (py_or (after e) (before e)) (PDict [])))).
Proof.
  now rewrite projected_get by reflexivity.
Qed.

Lemma cdc_timestamp_of_projected (e : CDCEvent) (us now : Z) :
  row_get (projected e us now) "cdc_timestamp" = Some (PStr (isoformat us)).
Proof.
  now rewrite projected_get by reflexivity.
Qed.

Lemma ingested_at_of_projected (e : CDCEvent) (us now : Z) :
  row_get (projected e us now) "ingested_at" = Some (PStr (isoformat now)).
Proof.
  now rewrite projected_get by reflexivity.
Qed.

Lemma cdc_operation_of_projected (e : CDCEvent) (us now : Z) :
  row_get (projected e us now) "cdc_operation"
  = Some (PStr (label_lookup operation_labels (operation e))).
Proof.
  now rewrite projected_get by reflexivity.
Qed.


(** *** The envelopes that project *)

(** A raising envelope is no valid envelope. *)
Lemma raising_envelope_invalid (payload : pyval) :
  raising_envelope payload = true -> valid_envelope payload = false.
Proof.
  unfold raising_envelope, valid_envelope, not_a_number, out_of_range.
  destruct (is_dict payload); [ | reflexivity].
  destruct (is_dict (field payload "source" (PDict []))); [ | reflexivity].
  destruct (hashable (field payload "op" (PStr "?"))); [ | reflexivity].
  cbn [negb orb andb].
  destruct (field payload "ts_ms" (PInt 0)) as [ | b | n | t | xs | items];
    try reflexivity; cbn [orb].
  - destruct (timestamp_ok (PBool b)); cbn [negb orb andb]; [ | reflexivity].
    destruct (truthy _), (is_dict _); cbn; congruence.
  - destruct (timestamp_ok (PInt n)); cbn [negb orb andb]; [ | reflexivity].
    destruct (truthy _), (is_dict _); cbn; congruence.
Qed.

Lemma timestamp_not_number_invalid (payload : pyval) :
  timestamp_not_number payload = true -> valid_envelope payload = false.
Proof.
  intros H. apply raising_envelope_invalid. revert H.
  unfold timestamp_not_number, raising_envelope, field.
  destruct payload as [ | b | n | t | xs | items]; try discriminate.
  destruct (dict_lookup items "ts_ms") as [ts | ]; [ | discriminate].
  intros ->. cbn [is_dict negb orb].
  now rewrite !orb_true_r.
Qed.

(** Parsing followed by projection returns a row, reading the clock once, on
    every valid envelope: a JSON object whose [source], when there, is an
    object, whose [op] is hashable, whose [ts_ms], when there, is an integer
    in datetime's range, and whose [after] is an object or falsy.  It raises
    on every raising envelope: a value that is no object, a [source] that is
    no object, an unhashable [op], a [ts_ms] that is no number or an integer
    out of datetime's range, an [after] that is truthy and no object. *)
Theorem envelope_shapes (payload : pyval) (clock : nat -> Z) (reads : nat) :
  (valid_envelope payload = true ->
   exists e r,
     from_debezium payload = Ok e
     /\ to_bigquery_row e clock reads = (Ok r, S reads)
     /\ parse_project payload clock reads = (Ok r, S reads))
  /\ (raising_envelope payload = true ->
      exists x, fst (parse_project payload clock reads) = Raise x).
Proof.
  split.
  - intros Hvalid.
    destruct (valid_envelope_projects payload clock reads Hvalid)
      as (e & us & Hparse & _ & _ & _ & _ & _ & _ & Hrow).
    exists e, (projected e us (clock reads)).
    split; [exact Hparse | ]. split; [exact Hrow | ].
    unfold parse_project. now rewrite Hparse.
  - intros Hbad.
    exact (invalid_envelope_raises payload clock reads
             (raising_envelope_invalid payload Hbad)).
Qed.

Lemma envelope_shapes_witness :
  (exists e r,
      from_debezium order_created = Ok e
      /\ to_bigquery_row e clock_2023 0%nat = (Ok r, 1%nat)
      /\ parse_project order_created clock_2023 0%nat = (Ok r, 1%nat))
  /\ exists x, fst (parse_project event_without_time clock_2023 0%nat) = Raise x.
Proof.
  split.
  - exact (proj1 (envelope_shapes order_created clock_2023 0%nat) eq_refl).
  - exact (proj2 (envelope_shapes event_without_time clock_2023 0%nat) eq_refl).
Defined.

(** *** C9 *)

(** C9 (as amended). For every valid envelope, parsing followed by projection
    returns a row whose [raw_payload] is a non-empty text, never null: the
    serialization of the after image when it is truthy, else of the before
    image when it is truthy, else of the empty object. *)
Theorem raw_payload_never_empty (payload : pyval) (clock : nat -> Z) (reads : nat) :
  valid_envelope payload = true ->
  exists e r s,
    from_debezium payload = Ok e
    /\ to_bigquery_row e clock reads = (Ok r, S reads)
    /\ row_get r "raw_payload" = Some (PStr s)
    /\ s <> ""
    /\ s = json_dumps (if truthy (after e) then after e
                       else if truthy (before e) then before e
                       else PDict []).
Proof.
  intros Hvalid.
  destruct (valid_envelope_projects payload clock reads Hvalid)
    as (e & us & Hparse & _ & _ & _ & _ & _ & _ & Hrow).
  exists e, (projected e us (clock reads)),
    (json_dumps (py_or (py_or (after e) (before e)) (PDict []))).
  repeat split; try assumption.
  - apply raw_payload_of_projected.
  - apply json_dumps_nonempty.
  - unfold py_or. destruct (truthy (after e)) eqn:Ha.
    + now rewrite Ha.
    + reflexivity.
Qed.

Lemma raw_payload_never_empty_witness :
  valid_envelope order_created = true
  /\ exists e r s,
       from_debezium order_created = Ok e
       /\ to_bigquery_row e clock_2023 0%nat = (Ok r, 1%nat)
       /\ row_get r "raw_payload" = Some (PStr s)
       /\ s <> ""
       /\ s = json_dumps (if truthy (after e) then after e
                          else if truthy (before e) then before e
                          else PDict []).
Proof.
  split; [reflexivity | ].
  apply (raw_payload_never_empty order_created clock_2023 0%nat). reflexivity.
Defined.

(** C9 (as stated) fails on an envelope whose after image is present and
    empty: the raw payload is the before image, not the after image. *)
Lemma raw_payload_skips_empty_after :
  exists e r,
    from_debezium order_emptied = Ok e
    /\ after e = PDict []
    /\ fst (to_bigquery_row e clock_2023 0%nat) = Ok r
    /\ row_get r "raw_payload" = Some (PStr (json_dumps (before e)))
    /\ row_get r "raw_payload" <> Some (PStr (json_dumps (after e))).
Proof.
  eexists. eexists.
  split; [reflexivity | ].
  split; [reflexivity | ].
  split; [reflexivity | ].
  split; [reflexivity | ].
  vm_compute. discriminate.
Qed.

(** *** C5 *)

(** C5 (as amended). A record whose millisecond timestamp is 0 is projected,
    not dropped, and its event-time column is the Unix epoch; the ingestion
    time goes to [ingested_at] only. *)
Theorem zero_timestamp_is_epoch (e : CDCEvent) (clock : nat -> Z) (reads : nat) :
  timestamp_ms e = PInt 0 ->
  hashable (operation e) = true ->
  negb (truthy (after e)) || is_dict (after e) = true ->
  exists r,
    to_bigquery_row e clock reads = (Ok r, S reads)
    /\ row_get r "cdc_timestamp" = Some (PStr "1970-01-01T00:00:00")
    /\ row_get r "ingested_at" = Some (PStr (isoformat (clock reads))).
Proof.
  intros Hts Hop Hafter.
  exists (projected e 0 (clock reads)).
  split.
  - apply to_bigquery_row_ok; try assumption. now rewrite Hts.
  - split.
    + now rewrite cdc_timestamp_of_projected.
    + apply ingested_at_of_projected.
Qed.

Lemma zero_timestamp_is_epoch_witness :
  exists r,
    to_bigquery_row order_at_zero clock_2023 0%nat = (Ok r, 1%nat)
    /\ row_get r "cdc_timestamp" = Some (PStr "1970-01-01T00:00:00")
    /\ row_get r "ingested_at" = Some (PStr (isoformat (clock_2023 0%nat))).
Proof.
  apply (zero_timestamp_is_epoch order_at_zero clock_2023 0%nat); reflexivity.
Defined.

(** C5 (as stated) fails: with the clock at 2023-11-14T22:13:20 the event-time
    column of a record with timestamp 0 is the epoch, not the ingestion
    time. *)
Lemma zero_timestamp_not_substituted :
  exists r,
    fst (to_bigquery_row order_at_zero clock_2023 0%nat) = Ok r
    /\ isoformat (clock_2023 0%nat) = "2023-11-14T22:13:20"
    /\ row_get r "ingested_at" = Some (PStr "2023-11-14T22:13:20")
    /\ row_get r "cdc_timestamp" = Some (PStr "1970-01-01T00:00:00")
    /\ row_get r "cdc_timestamp" <> Some (PStr (isoformat (clock_2023 0%nat))).
Proof.
  eexists.
  split; [reflexivity | ].
  split; [reflexivity | ].
  split; [reflexivity | ].
  split; [reflexivity | ].
  vm_compute. discriminate.
Qed.

(** *** C10 *)

(** C10. Projection is a function of the record and of the clock reading:
    two calls on the same record that read the same current time return the
    same row (or raise the same exception), whatever else differs. *)
Theorem to_bigquery_row_deterministic
    (e : CDCEvent) (clock1 clock2 : nat -> Z) (reads1 reads2 : nat) :
  clock1 reads1 = clock2 reads2 ->
  fst (to_bigquery_row e clock1 reads1) = fst (to_bigquery_row e clock2 reads2).
Proof.
  intros Hnow. unfold to_bigquery_row.
  destruct (rbind (operation_label e) _) as [[label us] | x]; cbn [fst].
  - now rewrite Hnow.
  - reflexivity.
Qed.

Lemma to_bigquery_row_deterministic_witness :
  clock_2023 0%nat = clock_2023 1%nat
  /\ fst (to_bigquery_row order_at_zero clock_2023 0%nat)
     = fst (to_bigquery_row order_at_zero clock_2023 1%nat).
Proof.
  split; [reflexivity | ].
  apply (to_bigquery_row_deterministic order_at_zero clock_2023 clock_2023 0%nat 1).
  reflexivity.
Defined.

(** Two calls in a row on a clock that has not moved give the same row. *)
Lemma to_bigquery_row_twice (e : CDCEvent) (clock : nat -> Z) (reads : nat) :
  clock reads = clock (snd (to_bigquery_row e clock reads)) ->
  fst (to_bigquery_row e clock (snd (to_bigquery_row e clock reads)))
  = fst (to_bigquery_row e clock reads).
Proof.
  unfold to_bigquery_row.
  destruct (rbind (operation_label e) _) as [[label us] | x]; cbn [fst snd].
  - now intros <-.
  - reflexivity.
Qed.

End CDCProps.

(** ** The engine *)

Module EngineProps.
Import Py CDC Engine Race Samples CDCProps.

Local Open Scope string_scope.
Local Open Scope Z_scope.

(** *** The flush policy *)

(** The comparison of the mantissas is [Pos.compare]. *)
Local Ltac flip_compare e1 e2 m1 m2 :=
  rewrite (Z.compare_antisym e1 e2);
  destruct (e1 ?= e2); cbn; try congruence;
  change (Pos.compare_cont Eq m1 m2) with (m1 ?= m2)%positive;
  change (Pos.compare_cont Eq m2 m1) with (m2 ?= m1)%positive;
  rewrite (Pos.compare_antisym m1 m2);
  destruct (m1 ?= m2)%positive; cbn; congruence.

Lemma SFcompare_Eq_sym (f1 f2 : spec_float) :
  SFcompare f1 f2 = Some Eq -> SFcompare f2 f1 = Some Eq.
Proof.
  destruct f1 as [s1 | s1 | | s1 m1 e1], f2 as [s2 | s2 | | s2 m2 e2];
    cbn; try destruct s1; try destruct s2; try congruence;
    flip_compare e1 e2 m1 m2.
Qed.

(** Floats that compare equal are ordered both ways. *)
Lemma float_eqb_ge (a b : float) :
  (a =? b)%float = true -> (b <=? a)%float = true.
Proof.
  rewrite eqb_spec, leb_spec.
  unfold SFeqb, SFleb.
  destruct (SFcompare (Prim2SF a) (Prim2SF b)) as [[ | | ] | ] eqn:Hc;
    try congruence.
  intros _. now rewrite (SFcompare_Eq_sym _ _ Hc).
Qed.

(** C2. [_should_flush] returns, and it returns true exactly when the buffered
    count has reached the batch size or the time since the last flush has
    reached the flush interval; both thresholds are inclusive. *)
Theorem should_flush_iff (env : Env) (w : World) :
  let p := self w in
  let buffered := _buffer_count p in
  let elapsed := (time_time env (time_reads w) - _last_flush_time p)%float in
  exists b : bool,
    fst (_should_flush env w) = Ok b
    /\ (b = true <->
        batch_size (config p) <= buffered
        \/ float_ge elapsed (flush_interval_sec (config p)))
    /\ (buffered = batch_size (config p) -> b = true)
    /\ ((elapsed =? flush_interval_sec (config p))%float = true -> b = true).
Proof.
  intros p buffered elapsed.
  unfold _should_flush, bind, get_self, read_time, ret, float_ge.
  fold p. fold buffered. cbn [self time_reads tick_time].
  destruct (Z.leb_spec (batch_size (config p)) buffered) as [Hsize | Hsize].
  - exists true. cbn. repeat split; auto.
  - fold elapsed.
    destruct (flush_interval_sec (config p) <=? elapsed)%float eqn:Htime.
    + exists true. cbn. repeat split; auto.
    + exists false. cbn. repeat split.
      * discriminate.
      * intros [H | H]; [lia | congruence].
      * lia.
      * intros H. apply float_eqb_ge in H. fold elapsed in H. congruence.
Qed.

Lemma should_flush_iff_witness :
  exists b : bool,
    fst (_should_flush sink_accepts (upd_self (set_buffer_count 100) fresh)) = Ok b
    /\ b = true.
Proof.
  destruct (should_flush_iff sink_accepts (upd_self (set_buffer_count 100) fresh))
    as (b & Hrun & _ & Hsize & _).
  exists b. split; [exact Hrun | apply Hsize; reflexivity].
Defined.

(** At the thresholds: 100 buffered rows flush at once, and so do 99 rows
    5.0 seconds after the last flush; 99 rows after 2.0 seconds do not. *)
Example should_flush_at_batch_size :
  fst (_should_flush sink_accepts (upd_self (set_buffer_count 100) fresh)) = Ok true.
Proof. reflexivity. Qed.

Example should_flush_at_interval :
  fst (_should_flush sink_accepts
         (upd_self (fun p => set_last_flush_time 997%float (set_buffer_count 99 p))
            fresh)) = Ok true.
Proof. reflexivity. Qed.

Example should_not_flush_early :
  fst (_should_flush sink_accepts (upd_self (set_buffer_count 99) fresh)) = Ok false.
Proof. reflexivity. Qed.

(** *** C1: bodies that do not decode *)

(** C1 (as amended). A message whose body is not valid JSON is negatively
    acknowledged, which asks the bus for redelivery; no row is buffered and no
    field of the engine changes; one error is logged; the handler returns
    without raising. *)
Theorem malformed_is_nacked (m : Message) (env : Env) (w : World) :
  malformed m = true ->
  exists event, _handle_message m env w = (Ok tt, rejected m event w).
Proof.
  unfold malformed, _handle_message, try_except, bind, buffer_message, lift,
    json_loads.
  destruct (data m); try discriminate; intros _; cbn;
    unfold bind, logger, tell_bus; eexists; reflexivity.
Qed.

Lemma malformed_is_nacked_witness :
  malformed (message 7 NotJson) = true
  /\ exists event,
       _handle_message (message 7 NotJson) sink_accepts fresh
       = (Ok tt, rejected (message 7 NotJson) event fresh).
Proof.
  split; [reflexivity | ].
  apply (malformed_is_nacked (message 7 NotJson) sink_accepts fresh).
  reflexivity.
Defined.

(** C1 (as stated) fails: the handler tells the bus [Nack], never [Ack], for
    a body that is not JSON. *)
Lemma malformed_is_not_acked :
  bus (snd (_handle_message (message 7 NotJson) sink_accepts fresh)) = [Nack 7%nat]
  /\ ~ In (Ack 7%nat) (bus (snd (_handle_message (message 7 NotJson) sink_accepts fresh))).
Proof.
  split; [reflexivity | ].
  cbn. intros [H | []]. discriminate.
Qed.

(** *** Buffering a message *)

Lemma py_eqb_refl (k : pyval) : hashable k = true -> py_eqb k k = true.
Proof.
  destruct k as [ | b | n | s | xs | items]; cbn; try discriminate; intros _.
  - reflexivity.
  - now destruct b.
  - apply Z.eqb_refl.
  - apply String.eqb_refl.
Qed.

Lemma pd_get_set {V} (d : pydict V) (k : pyval) (v : V) :
  hashable k = true -> pd_get (pd_set d k v) k = Some v.
Proof.
  intros Hk. induction d as [ | [k' v'] rest IH]; cbn.
  - now rewrite py_eqb_refl.
  - destruct (py_eqb k' k) eqn:Hkk; cbn; rewrite Hkk; [reflexivity | exact IH].
Qed.

(** After the append the table's buffer ends with the new row. *)
Lemma appended_get (b : pydict (list row)) (table : pyval) (r : row) :
  hashable table = true ->
  pd_get (appended b table r) table
  = Some (match pd_get b table with Some rows => rows ++ [r] | None => [r] end)%list.
Proof.
  intros Hk. unfold appended.
  destruct (pd_get b table); now apply pd_get_set.
Qed.

(** The handler, once one of its steps has raised. *)
Lemma handle_message_raised (m : Message) (env : Env) (w w' : World) (x : exn) :
  bind (buffer_message m) (fun _ => flush_if_due) env w = (Raise x, w') ->
  exists event, _handle_message m env w = (Ok tt, rejected m event w').
Proof.
  intros H. unfold _handle_message, try_except. rewrite H.
  destruct x; eexists; reflexivity.
Qed.

(** The handler, once the message is buffered and acknowledged. *)
Lemma handle_message_buffered (m : Message) (env : Env) (w w1 : World) :
  buffer_message m env w = (Ok tt, w1) ->
  _handle_message m env w = try_except flush_if_due (on_exception m) env w1.
Proof.
  intros H. unfold _handle_message, try_except, bind. now rewrite H.
Qed.

(** A valid envelope with a hashable table name is parsed, projected,
    buffered and acknowledged. *)
Lemma buffer_message_accepts (m : Message) (payload : pyval) (env : Env) (w : World) :
  data m = Json payload ->
  valid_envelope payload = true ->
  hashable (table_of payload) = true ->
  exists e us,
    from_debezium payload = Ok e
    /\ table_name e = table_of payload
    /\ operation e = field payload "op" (PStr "?")
    /\ before e = field payload "before" PNone
    /\ after e = field payload "after" PNone
    /\ utcfromtimestamp_ms (timestamp_ms e) = Ok us
    /\ buffer_message m env w
       = (Ok tt, accepted m (table_of payload)
                   (projected e us (utcnow env (utc_reads w))) w).
Proof.
  intros Hdata Hvalid Htable.
  destruct (valid_envelope_projects payload (utcnow env) (utc_reads w) Hvalid)
    as (e & us & Hparse & Htab & Hop & Hb & Ha & _ & Hus & Hrow).
  exists e, us. repeat (split; [assumption | ]).
  unfold buffer_message, bind, lift, json_loads, clocked, buffer_append.
  rewrite Hdata, Hparse, Hrow, Htab, Htable. reflexivity.
Qed.

(** Any other JSON value is not buffered: the handler logs an error and
    tells the bus [Nack]. *)
Lemma handle_message_rejects (m : Message) (payload : pyval) (env : Env) (w : World) :
  data m = Json payload ->
  valid_envelope payload && hashable (table_of payload) = false ->
  exists event reads,
    _handle_message m env w = (Ok tt, rejected m event (set_utc_reads reads w)).
Proof.
  intros Hdata Hbad.
  assert (exists x reads,
             bind (buffer_message m) (fun _ => flush_if_due) env w
             = (Raise x, set_utc_reads reads w)) as (x & reads & Hraise).
  { unfold bind at 1. unfold buffer_message, bind, lift, json_loads, clocked.
    rewrite Hdata.
    destruct (valid_envelope payload) eqn:Hvalid.
    - destruct (valid_envelope_projects payload (utcnow env) (utc_reads w) Hvalid)
        as (e & us & Hparse & Htab & _ & _ & _ & _ & _ & Hrow).
      rewrite Hparse, Hrow. cbn [fst snd]. unfold buffer_append.
      rewrite Htab. cbn [andb] in Hbad. rewrite Hbad. cbn. eauto.
    - destruct (invalid_envelope_raises payload (utcnow env) (utc_reads w) Hvalid)
        as [x Hx].
      unfold parse_project in Hx.
      destruct (from_debezium payload) as [e | x'].
      + rewrite Hx. eauto.
      + exists x', (utc_reads w). now destruct w. }
  destruct (handle_message_raised _ _ _ _ _ Hraise) as [event Hevent].
  eauto.
Qed.

(** What [accepted] says of the engine: the row is the last of its table's
    buffer, one more row is counted, one [Ack] was sent. *)
Lemma accepted_buffer (m : Message) (table : pyval) (r : row) (w : World) :
  hashable table = true ->
  pd_get (_buffer (self (accepted m table r w))) table
  = Some (match pd_get (_buffer (self w)) table with
          | Some rows => rows ++ [r]
          | None => [r]
          end)%list
  /\ _buffer_count (self (accepted m table r w)) = _buffer_count (self w) + 1
  /\ bus (accepted m table r w) = (bus w ++ [Ack (message_id m)])%list.
Proof.
  intros Hk. cbn. split; [now apply appended_get | split; reflexivity].
Qed.

Lemma unknown_label (op : pyval) :
  known_operation op = false -> label_lookup operation_labels op = "UNKNOWN".
Proof.
  unfold known_operation. intros H.
  repeat (apply orb_false_elim in H; destruct H as [H ?]).
  unfold operation_labels. cbn [label_lookup].
  now rewrite H, H0, H1, H2.
Qed.

(** Without a [source.table] the table name is "unknown". *)
Lemma table_defaults_to_unknown (payload : pyval) (src : list (string * pyval)) :
  field payload "source" (PDict []) = PDict src ->
  dict_lookup src "table" = None ->
  table_of payload = PStr "unknown".
Proof.
  intros Hsrc Htable. unfold table_of. rewrite Hsrc. cbn. now rewrite Htable.
Qed.

(** *** C4 *)

(** C4 (as amended). For a valid-JSON message whose operation code is none
    of [c], [u], [d], [r]: when it is a valid envelope with a hashable table
    name, parsing succeeds, the label is [UNKNOWN], and the row is appended to
    the buffer of its table (the table "unknown" when [source.table] is
    absent) and acknowledged before the flush policy runs; when it is an
    object whose [ts_ms] is there and is no number (null, a string, an array
    or an object), it is not buffered and the handler answers [Nack], as for a
    body that is not JSON. *)
Theorem unknown_operation_is_buffered
    (m : Message) (payload : pyval) (env : Env) (w : World) :
  data m = Json payload ->
  known_operation (field payload "op" (PStr "?")) = false ->
  (valid_envelope payload && hashable (table_of payload) = true ->
   exists e r,
     from_debezium payload = Ok e
     /\ operation_label e = Ok "UNKNOWN"
     /\ table_name e = table_of payload
     /\ (forall src, field payload "source" (PDict []) = PDict src ->
                     dict_lookup src "table" = None ->
                     table_name e = PStr "unknown")
     /\ row_get r "cdc_operation" = Some (PStr "UNKNOWN")
     /\ buffer_message m env w = (Ok tt, accepted m (table_name e) r w)
     /\ pd_get (_buffer (self (accepted m (table_name e) r w))) (table_name e)
        = Some (match pd_get (_buffer (self w)) (table_name e) with
                | Some rows => rows ++ [r]
                | None => [r]
                end)%list
     /\ bus (accepted m (table_name e) r w) = (bus w ++ [Ack (message_id m)])%list
     /\ _handle_message m env w
        = try_except flush_if_due (on_exception m) env
            (accepted m (table_name e) r w))
  /\ (timestamp_not_number payload = true ->
      exists event reads,
        _handle_message m env w = (Ok tt, rejected m event (set_utc_reads reads w))
        /\ self (rejected m event (set_utc_reads reads w)) = self w
        /\ bus (rejected m event (set_utc_reads reads w))
           = (bus w ++ [Nack (message_id m)])%list).
Proof.
  intros Hdata Hop. split.
  - intros Hok. apply andb_prop in Hok. destruct Hok as [Hvalid Htable].
    destruct (buffer_message_accepts m payload env w Hdata Hvalid Htable)
      as (e & us & Hparse & Htab & Hope & _ & _ & _ & Hbuf).
    exists e, (projected e us (utcnow env (utc_reads w))).
    rewrite Htab.
    destruct (accepted_buffer m (table_of payload)
                (projected e us (utcnow env (utc_reads w))) w Htable)
      as (Hget & _ & Hbus).
    split; [exact Hparse | ].
    split.
    { unfold operation_label. rewrite Hope.
      assert (hashable (field payload "op" (PStr "?")) = true) as ->.
      { unfold valid_envelope in Hvalid.
        repeat (apply andb_prop in Hvalid; destruct Hvalid as [Hvalid ?]).
        assumption. }
      now rewrite unknown_label. }
    split; [reflexivity | ].
    split; [apply table_defaults_to_unknown | ].
    split.
    { rewrite cdc_operation_of_projected, Hope. now rewrite unknown_label. }
    split; [exact Hbuf | ].
    split; [exact Hget | ].
    split; [exact Hbus | ].
    now apply handle_message_buffered.
  - intros Hts.
    pose proof (timestamp_not_number_invalid payload Hts) as Hvalid.
    destruct (handle_message_rejects m payload env w Hdata) as (event & reads & Hrun);
      [now rewrite Hvalid | ].
    exists event, reads. split; [exact Hrun | split; reflexivity].
Qed.

Lemma unknown_operation_is_buffered_witness :
  exists e r,
    from_debezium truncate_event = Ok e
    /\ operation_label e = Ok "UNKNOWN"
    /\ table_name e = PStr "unknown"
    /\ row_get r "cdc_operation" = Some (PStr "UNKNOWN")
    /\ buffer_message (message 3 (Json truncate_event)) sink_accepts fresh
       = (Ok tt, accepted (message 3 (Json truncate_event)) (table_name e) r fresh)
    /\ bus (accepted (message 3 (Json truncate_event)) (table_name e) r fresh)
       = [Ack 3%nat].
Proof.
  destruct (proj1 (unknown_operation_is_buffered
                     (message 3 (Json truncate_event)) truncate_event
                     sink_accepts fresh eq_refl eq_refl) eq_refl)
    as (e & r & Hparse & Hlabel & Htab & _ & Hcol & Hbuf & _ & Hbus & _).
  exists e, r. repeat split; assumption.
Defined.

(** C4 (as stated) fails on valid JSON whose [ts_ms] is null: the operation
    code [x] is unmapped, yet nothing is buffered and the message is not
    acknowledged. *)
Lemma unknown_operation_null_time_rejected :
  known_operation (field event_without_time "op" (PStr "?")) = false
  /\ _handle_message (message 4 (Json event_without_time)) sink_accepts fresh
     = (Ok tt, rejected (message 4 (Json event_without_time))
                 "Error processing CDC message" fresh)
  /\ _buffer (self (snd (_handle_message (message 4 (Json event_without_time))
                           sink_accepts fresh))) = []
  /\ bus (snd (_handle_message (message 4 (Json event_without_time))
                 sink_accepts fresh)) = [Nack 4%nat].
Proof. repeat split. Qed.

(** *** C6 *)




(** *** The sink writer *)

Lemma ensure_table_exists_ready (env : Env) (w : World) (table : pyval) :
  hashable table = true ->
  table_ready env w table = true ->
  ensure_table_exists table env w
  = (Ok (table_id_of (sink (self w)) table), ensured table w).
Proof.
  unfold table_ready, ensured, ensure_table_exists, bind, get_self.
  intros -> Hready. cbn [negb].
  destruct (pd_get (_table_schemas (sink (self w))) table); [reflexivity | ].
  unfold try_except, bind, client_create_table. now rewrite Hready.
Qed.

(** Once ensured, a table is found in the cache: the next call makes no
    request to the client and changes nothing. *)
Theorem ensure_table_exists_cached (env : Env) (w : World) (table : pyval) :
  hashable table = true ->
  table_ready env w table = true ->
  ensure_table_exists table env (ensured table w)
  = (Ok (table_id_of (sink (self w)) table), ensured table w).
Proof.
  intros Htable Hready.
  unfold ensure_table_exists, bind, get_self. rewrite Htable. cbn [negb].
  unfold ensured.
  destruct (pd_get (_table_schemas (sink (self w))) table) eqn:Hget.
  - now rewrite Hget.
  - cbn [self sink _table_schemas add_log upd_self record_call set_table_schemas].
    rewrite pd_get_set by assumption. reflexivity.
Qed.

Lemma ensure_table_exists_cached_witness :
  ensure_table_exists (PStr "orders") sink_accepts (ensured (PStr "orders") fresh)
  = (Ok "local-dev.raw.cdc_orders", ensured (PStr "orders") fresh)
  /\ trace (ensured (PStr "orders") fresh) = [CreateTable "local-dev.raw.cdc_orders"].
Proof.
  split; [ | reflexivity].
  apply (ensure_table_exists_cached sink_accepts fresh (PStr "orders")); reflexivity.
Defined.

(** [write_batch] on a non-empty batch, once the table is ensured and the
    client has answered the insert request. *)
Lemma write_batch_after_ensure
    (env : Env) (w w1 : World) (table : pyval) (id : string) (r : row)
    (rows : list row) (errors : list pyval) :
  ensure_table_exists table env w = (Ok id, w1) ->
  insert_rows_json env (List.length (trace w1)) id (r :: rows) = Ok errors ->
  write_batch table (r :: rows) env w
  = (Ok (Z.of_nat (List.length (r :: rows)) - Z.of_nat (List.length errors)),
     add_log (batch_log errors) (record_call (InsertRowsJson id (r :: rows)) w1)).
Proof.
  intros Hensure Hinsert.
  unfold write_batch, bind at 1. rewrite Hensure.
  unfold bind at 1. unfold client_insert_rows_json. rewrite Hinsert.
  destruct errors as [ | err errors]; unfold bind, logger, ret; cbn [batch_log].
  - now rewrite Z.sub_0_r.
  - reflexivity.
Qed.

Lemma rows_sunk_app (l1 l2 : list client_call) :
  rows_sunk (l1 ++ l2) = rows_sunk l1 + rows_sunk l2.
Proof.
  induction l1 as [ | [id | id rows] rest IH]; cbn [rows_sunk app]; lia.
Qed.

(** With a client that answers, a batch is handed to the sink whole. *)
Lemma write_batch_answers (env : Env) (w : World) (table : pyval) (rows : list row) :
  sink_answers env ->
  hashable table = true ->
  exists written w1,
    write_batch table rows env w = (Ok written, w1)
    /\ rows_sunk (trace w1) = rows_sunk (trace w) + Z.of_nat (List.length rows).
Proof.
  intros [Hcreate Hinsert] Htable.
  destruct rows as [ | r rows].
  - exists 0, w. split; [reflexivity | cbn; lia].
  - assert (table_ready env w table = true) as Hready.
    { unfold table_ready. destruct (pd_get _ table); [reflexivity | apply Hcreate]. }
    destruct (Hinsert (List.length (trace (ensured table w)))
                (table_id_of (sink (self w)) table) (r :: rows)) as [errors Herr].
    eexists. eexists. split.
    + apply (write_batch_after_ensure env w (ensured table w) table
               (table_id_of (sink (self w)) table) r rows errors);
        [now apply ensure_table_exists_ready | exact Herr].
    + cbn [trace add_log record_call]. rewrite rows_sunk_app.
      cbn [rows_sunk]. unfold ensured.
      destruct (pd_get _ table); cbn [trace add_log upd_self record_call];
        rewrite ?rows_sunk_app; cbn [rows_sunk]; lia.
Qed.

Lemma write_all_answers (env : Env) (items : pydict (list row)) :
  sink_answers env ->
  hashable_keys items ->
  forall (acc : Z) (w : World),
  exists total w1,
    write_all items acc env w = (Ok total, w1)
    /\ rows_sunk (trace w1) = rows_sunk (trace w) + rows_buffered items.
Proof.
  intros Henv Hkeys.
  induction Hkeys as [ | [table rows] rest Hhead Hrest IH]; intros acc w.
  - exists acc, w. split; [reflexivity | cbn; lia].
  - cbn [fst] in Hhead.
    destruct (write_batch_answers env w table rows Henv Hhead)
      as (written & w1 & Hbatch & Hsunk1).
    destruct (IH (acc + written) w1) as (total & w2 & Hall & Hsunk2).
    exists total, w2. split.
    + cbn [write_all]. unfold bind. now rewrite Hbatch.
    + cbn [rows_buffered]. lia.
Qed.

(** *** C7 *)

(** C7 (as amended). For every non-empty batch whose table is ready, whatever
    list of per-row errors the client returns, [write_batch] returns one
    integer, the number of rows minus the number of errors; the errors
    themselves are logged, not returned.  It sends one insert request, so it
    does not retry, and it does not raise. *)
Theorem write_batch_returns_count
    (env : Env) (w : World) (table : pyval) (rows : list row) (errors : list pyval) :
  rows <> [] ->
  hashable table = true ->
  table_ready env w table = true ->
  insert_rows_json env (List.length (trace (ensured table w)))
    (table_id_of (sink (self w)) table) rows = Ok errors ->
  write_batch table rows env w
  = (Ok (Z.of_nat (List.length rows) - Z.of_nat (List.length errors)),
     add_log (batch_log errors)
       (record_call (InsertRowsJson (table_id_of (sink (self w)) table) rows)
          (ensured table w))).
Proof.
  intros Hrows Htable Hready Hinsert.
  destruct rows as [ | r rows]; [congruence | ].
  apply write_batch_after_ensure.
  - now apply ensure_table_exists_ready.
  - exact Hinsert.
Qed.

Lemma write_batch_returns_count_witness :
  write_batch (PStr "orders") [row_1; row_2] (sink_rejects 1) fresh
  = (Ok 1,
     add_log (Error, "BigQuery insert errors")
       (record_call (InsertRowsJson "local-dev.raw.cdc_orders" [row_1; row_2])
          (ensured (PStr "orders") fresh))).
Proof.
  apply (write_batch_returns_count (sink_rejects 1) fresh (PStr "orders")
           [row_1; row_2]
           [PDict [("index", PInt 1);
                   ("errors", PList [PDict [("reason", PStr "invalid")]])]]).
  - discriminate.
  - reflexivity.
  - reflexivity.
  - reflexivity.
Defined.

(** C7 (as stated) fails: a client that rejects the first row and a client
    that rejects the second one return different error lists, and
    [write_batch] returns the same value, the integer 1, and leaves the same
    world; no list of per-row errors is part of what it returns. *)
Lemma write_batch_drops_row_errors :
  insert_rows_json (sink_rejects 0) 1 "local-dev.raw.cdc_orders" [row_1; row_2]
  <> insert_rows_json (sink_rejects 1) 1 "local-dev.raw.cdc_orders" [row_1; row_2]
  /\ fst (write_batch (PStr "orders") [row_1; row_2] (sink_rejects 0) fresh) = Ok 1
  /\ write_batch (PStr "orders") [row_1; row_2] (sink_rejects 0) fresh
     = write_batch (PStr "orders") [row_1; row_2] (sink_rejects 1) fresh.
Proof.
  split; [cbn; congruence | ].
  split; reflexivity.
Qed.

(** *** Flushing *)

Lemma same_engine_refl (w : World) : same_engine w w.
Proof. unfold same_engine. repeat split. Qed.

Lemma same_engine_trans (w1 w2 w3 : World) :
  same_engine w1 w2 -> same_engine w2 w3 -> same_engine w1 w3.
Proof.
  unfold same_engine.
  intros (? & ? & ? & ? & ? & ? & ? & ? & ?) (? & ? & ? & ? & ? & ? & ? & ? & ?).
  repeat split; congruence.
Qed.

Lemma ensure_table_exists_frame (env : Env) (w w' : World) (table : pyval)
    (res : result string) :
  ensure_table_exists table env w = (res, w') -> same_engine w w'.
Proof.
  unfold ensure_table_exists, bind, get_self.
  destruct (hashable table); cbn [negb].
  - destruct (pd_get (_table_schemas (sink (self w))) table).
    + intros [= _ <-]. apply same_engine_refl.
    + unfold try_except, bind, client_create_table.
      destruct (create_table env _ _); intros [= _ <-];
        unfold same_engine; repeat split.
  - intros [= _ <-]. apply same_engine_refl.
Qed.

Lemma write_batch_frame (env : Env) (w w' : World) (table : pyval)
    (rows : list row) (res : result Z) :
  write_batch table rows env w = (res, w') -> same_engine w w'.
Proof.
  unfold write_batch. destruct rows as [ | r rows].
  - intros [= _ <-]. apply same_engine_refl.
  - unfold bind at 1.
    destruct (ensure_table_exists table env w) as [[id | x] w1] eqn:Hensure;
      apply ensure_table_exists_frame in Hensure.
    + unfold bind at 1. unfold client_insert_rows_json.
      destruct (insert_rows_json env _ id (r :: rows)) as [[ | err errs] | x];
        intros [= _ <-];
        (eapply same_engine_trans; [exact Hensure | ]);
        unfold same_engine; repeat split.
    + now intros [= _ <-].
Qed.

Lemma write_all_frame (env : Env) (items : pydict (list row)) :
  forall (acc : Z) (w w' : World) (res : result Z),
    write_all items acc env w = (res, w') -> same_engine w w'.
Proof.
  induction items as [ | [table rows] rest IH]; intros acc w w' res; cbn.
  - intros [= _ <-]. apply same_engine_refl.
  - unfold bind.
    destruct (write_batch table rows env w) as [[written | x] w1] eqn:Hbatch;
      apply write_batch_frame in Hbatch.
    + intros Hrest. apply IH in Hrest.
      eapply same_engine_trans; eassumption.
    + now intros [= _ <-].
Qed.

Lemma flush_after_writes (env : Env) (w w1 : World) (total : Z) :
  _buffer (self w) <> [] ->
  write_all (_buffer (self w)) 0 env w = (Ok total, w1) ->
  _flush_all_buffers env w = (Ok tt, flushed env total w1).
Proof.
  intros Hne Hw. unfold _flush_all_buffers, bind at 1, get_self.
  destruct (_buffer (self w)) as [ | kv rest] eqn:Hb; [congruence | ].
  unfold bind at 1. unfold flush_write, bind at 1. rewrite Hw.
  reflexivity.
Qed.

Lemma flush_after_raise (env : Env) (w w1 : World) (x : exn) :
  write_all (_buffer (self w)) 0 env w = (Raise x, w1) ->
  _flush_all_buffers env w = (Raise x, w1).
Proof.
  intros Hw. unfold _flush_all_buffers, bind at 1, get_self.
  destruct (_buffer (self w)) as [ | kv rest] eqn:Hb.
  - cbn in Hw. discriminate.
  - unfold bind at 1. unfold flush_write, bind at 1. now rewrite Hw.
Qed.

(** *** C8 *)

(** C8 (as amended). A flush of a non-empty buffer set whose sink writes all
    return, whatever rows the sink reports as rejected, ends with every
    buffer empty, the buffered-row counter at 0 and the last-flush timestamp
    at the clock reading taken at the end of the flush; rejected rows are not
    buffered again and the running flag is untouched.  A flush in which a sink
    write raises ends with that exception and leaves the buffers, the counter
    and the last-flush timestamp as they were.  The writes all return when the
    client never raises. *)
Theorem flush_outcome (env : Env) (w : World) :
  _buffer (self w) <> [] ->
  (forall total w1,
      write_all (_buffer (self w)) 0 env w = (Ok total, w1) ->
      exists w2,
        _flush_all_buffers env w = (Ok tt, w2)
        /\ _buffer (self w2) = []
        /\ _buffer_count (self w2) = 0
        /\ _last_flush_time (self w2) = time_time env (time_reads w)
        /\ _running (self w2) = _running (self w)
        /\ _total_processed (self w2) = _total_processed (self w) + total)
  /\ (forall x w1,
         write_all (_buffer (self w)) 0 env w = (Raise x, w1) ->
         _flush_all_buffers env w = (Raise x, w1)
         /\ _buffer (self w1) = _buffer (self w)
         /\ _buffer_count (self w1) = _buffer_count (self w)
         /\ _last_flush_time (self w1) = _last_flush_time (self w)
         /\ _running (self w1) = _running (self w))
  /\ (sink_answers env ->
      hashable_keys (_buffer (self w)) ->
      exists total w1, write_all (_buffer (self w)) 0 env w = (Ok total, w1)).
Proof.
  intros Hne. split; [ | split].
  - intros total w1 Hw.
    destruct (write_all_frame _ _ _ _ _ _ Hw)
      as (_ & _ & _ & Hrun & Htotal & _ & _ & Htime & _).
    exists (flushed env total w1).
    split; [now apply flush_after_writes | ].
    cbn. rewrite Htime, Hrun, Htotal. repeat split.
  - intros x w1 Hw.
    destruct (write_all_frame _ _ _ _ _ _ Hw) as (Hb & Hc & Hl & Hrun & _).
    split; [now apply flush_after_raise | ].
    repeat split; assumption.
  - intros Henv Hkeys.
    destruct (write_all_answers env _ Henv Hkeys 0 w) as (total & w1 & Hw & _).
    eauto.
Qed.

(** With a client that rejects one row of the two buffered, the flush still
    empties the buffers. *)
Lemma flush_outcome_witness :
  _buffer (self two_buffered) <> []
  /\ exists w2,
       _flush_all_buffers (sink_rejects 1) two_buffered = (Ok tt, w2)
       /\ _buffer (self w2) = []
       /\ _buffer_count (self w2) = 0
       /\ _last_flush_time (self w2) = 1002%float
       /\ _running (self w2) = true
       /\ _total_processed (self w2) = 1.
Proof.
  split; [discriminate | ].
  apply (proj1 (flush_outcome (sink_rejects 1) two_buffered
                  ltac:(discriminate))
           1 (snd (write_all (_buffer (self two_buffered)) 0 (sink_rejects 1)
                     two_buffered))).
  reflexivity.
Defined.

(** C8 (as stated) fails when the sink is unreachable: the flush raises, and
    the two rows are still buffered and counted. *)
Lemma failed_flush_keeps_rows :
  fst (_flush_all_buffers sink_down two_buffered) = Raise SinkError
  /\ _buffer (self (snd (_flush_all_buffers sink_down two_buffered)))
     = [(PStr "orders", [row_1; row_2])]
  /\ _buffer_count (self (snd (_flush_all_buffers sink_down two_buffered))) = 2.
Proof. repeat split. Qed.

End EngineProps.

(** ** Appends and flushes in one schedule *)

Module RaceProps.
Import Py CDC Engine Race Samples EngineProps.

Local Open Scope string_scope.
Local Open Scope Z_scope.

Lemma rows_buffered_set (b : pydict (list row)) (k : pyval) (rows : list row) :
  rows_buffered (pd_set b k rows)
  = rows_buffered b
    - Z.of_nat (List.length (match pd_get b k with Some old => old | None => [] end))
    + Z.of_nat (List.length rows).
Proof.
  induction b as [ | [k' old] rest IH]; cbn [pd_set pd_get rows_buffered].
  - cbn. lia.
  - destruct (py_eqb k' k); cbn [rows_buffered]; lia.
Qed.

(** An append adds one row to the buffers. *)
Lemma rows_buffered_appended (b : pydict (list row)) (table : pyval) (r : row) :
  rows_buffered (appended b table r) = rows_buffered b + 1.
Proof.
  unfold appended.
  destruct (pd_get b table) as [old | ] eqn:Hget;
    rewrite rows_buffered_set, Hget.
  - rewrite length_app. cbn. lia.
  - cbn. lia.
Qed.

Lemma hashable_keys_set (b : pydict (list row)) (k : pyval) (rows : list row) :
  hashable k = true -> hashable_keys b -> hashable_keys (pd_set b k rows).
Proof.
  intros Hk Hb. unfold hashable_keys in *.
  induction Hb as [ | [k' old] rest Hhead Hrest IH]; cbn [pd_set].
  - repeat constructor. exact Hk.
  - destruct (py_eqb k' k); constructor; auto.
Qed.

Lemma hashable_keys_appended (b : pydict (list row)) (table : pyval) (r : row) :
  hashable table = true -> hashable_keys b -> hashable_keys (appended b table r).
Proof.
  intros Hk Hb. unfold appended.
  destruct (pd_get b table); now apply hashable_keys_set.
Qed.

(** A flush moves every buffered row to the sink when the client answers. *)
Lemma flush_conserves_rows (env : Env) (w : World) :
  sink_answers env ->
  hashable_keys (_buffer (self w)) ->
  let w' := snd (_flush_all_buffers env w) in
  rows_sunk (trace w') + rows_buffered (_buffer (self w'))
  = rows_sunk (trace w) + rows_buffered (_buffer (self w))
  /\ hashable_keys (_buffer (self w')).
Proof.
  intros Henv Hkeys.
  assert (_buffer (self w) = [] \/ _buffer (self w) <> []) as [Hb | Hb]
    by (destruct (_buffer (self w)); [now left | now right]).
  - unfold _flush_all_buffers, bind, get_self. rewrite Hb. cbn.
    rewrite Hb. split; [reflexivity | constructor].
  - destruct (write_all_answers env (_buffer (self w)) Henv Hkeys 0 w)
      as (total & w1 & Hall & Hsunk).
    rewrite (flush_after_writes env w w1 total Hb Hall).
    cbn [snd flushed self trace upd_self tick_time add_log set_last_flush_time
           set_buffer_count set_buffer _buffer rows_buffered].
    rewrite Hsunk. split; [lia | constructor].
Qed.

(** An append adds its row when the table name is hashable. *)
Lemma append_conserves_rows (env : Env) (w : World) (table : pyval) (r : row) :
  hashable table = true ->
  hashable_keys (_buffer (self w)) ->
  let w' := snd (buffer_append table r env w) in
  rows_sunk (trace w') + rows_buffered (_buffer (self w'))
  = rows_sunk (trace w) + rows_buffered (_buffer (self w)) + 1
  /\ hashable_keys (_buffer (self w')).
Proof.
  intros Htable Hkeys. unfold buffer_append. rewrite Htable. cbn.
  rewrite rows_buffered_appended. split; [lia | now apply hashable_keys_appended].
Qed.

Lemma serial_run_conserves_rows (env : Env) (ops : list op) :
  sink_answers env ->
  hashable_ops ops ->
  forall w : World,
    hashable_keys (_buffer (self w)) ->
    let w' := run_serial env ops w in
    rows_sunk (trace w') + rows_buffered (_buffer (self w'))
    = rows_sunk (trace w) + rows_buffered (_buffer (self w)) + serial_appends ops.
Proof.
  intros Henv Hops. unfold run_serial.
  induction Hops as [ | o rest Ho Hrest IH]; intros w Hkeys; cbn [fold_left].
  - cbn. lia.
  - destruct o as [table r | ]; cbn [serial_step serial_appends].
    + destruct (append_conserves_rows env w table r Ho Hkeys) as [Heq Hk].
      cbv zeta in IH. rewrite (IH _ Hk). lia.
    + destruct (flush_conserves_rows env w Henv Hkeys) as [Heq Hk].
      cbv zeta in IH. rewrite (IH _ Hk). lia.
Qed.

(** A schedule in which every flush resets right after its writes runs as the
    methods do when called one after the other. *)
Lemma run_schedule_of (env : Env) (ops : list op) :
  forall (n : nat) (w : World),
    run env (schedule_of n ops) (w, []) = (run_serial env ops w, []).
Proof.
  unfold run, run_serial.
  induction ops as [ | [table r | ] rest IH]; intros n w.
  - reflexivity.
  - cbn [schedule_of fold_left step serial_step]. apply IH.
  - cbn [schedule_of fold_left serial_step].
    replace (step env (FlushReset n) (step env (FlushWrite n) (w, [])))
      with (snd (_flush_all_buffers env w), @nil nat); [apply IH | ].
    unfold _flush_all_buffers, bind at 1, get_self. cbn [step].
    destruct (_buffer (self w)) as [ | kv items]; [reflexivity | ].
    unfold bind.
    destruct (flush_write (kv :: items) env w) as [[[] | x] w1]; cbn.
    + now rewrite Nat.eqb_refl.
    + reflexivity.
Qed.

Lemma appends_schedule_of (ops : list op) :
  forall n, appends (schedule_of n ops) = serial_appends ops.
Proof.
  induction ops as [ | [table r | ] rest IH]; intros n; cbn; now rewrite ?IH.
Qed.

(** *** The buffered-row counter *)

(** [_buffer_count] is the number of rows in the buffers: an append and a
    flush keep it so, whatever the client answers. *)
Theorem buffer_count_counts_rows (env : Env) (ops : list op) (w : World) :
  _buffer_count (self w) = rows_buffered (_buffer (self w)) ->
  let w' := run_serial env ops w in
  _buffer_count (self w') = rows_buffered (_buffer (self w')).
Proof.
  unfold run_serial. revert w.
  induction ops as [ | o rest IH]; intros w Hinv; cbn [fold_left].
  - exact Hinv.
  - apply IH. destruct o as [table r | ]; cbn [serial_step].
    + unfold buffer_append. destruct (hashable table); cbn.
      * rewrite rows_buffered_appended. lia.
      * exact Hinv.
    + assert (_buffer (self w) = [] \/ _buffer (self w) <> []) as [Hb | Hb]
        by (destruct (_buffer (self w)); [now left | now right]).
      * unfold _flush_all_buffers, bind, get_self. now rewrite Hb.
      * destruct (write_all (_buffer (self w)) 0 env w) as [[total | x] w1] eqn:Hw.
        -- now rewrite (flush_after_writes env w w1 total Hb Hw).
        -- rewrite (flush_after_raise env w w1 x Hw). cbn [snd].
           destruct (write_all_frame _ _ _ _ _ _ Hw) as (Hbuf & Hcount & _).
           now rewrite Hbuf, Hcount.
Qed.

Lemma buffer_count_counts_rows_witness :
  let w' := run_serial sink_down
              [OpAppend (PStr "orders") row_1; OpFlush;
               OpAppend (PStr "orders") row_2] fresh in
  _buffer_count (self w') = rows_buffered (_buffer (self w'))
  /\ _buffer_count (self w') = 2.
Proof.
  split; [ | reflexivity].
  apply (buffer_count_counts_rows sink_down
           [OpAppend (PStr "orders") row_1; OpFlush;
            OpAppend (PStr "orders") row_2] fresh).
  reflexivity.
Defined.

(** *** C3 *)

(** C3 (as amended). The source holds no mutex.  When appends and flushes run
    one at a time, every flush resetting the buffers right after its writes,
    and the sink client answers every request, no row is lost or duplicated:
    the rows handed to the sink over all flushes plus the rows left in the
    buffers are the rows that were there at the start plus one per append. *)
Theorem serial_schedule_conserves_rows (env : Env) (ops : list op) (w : World) :
  sink_answers env ->
  hashable_ops ops ->
  hashable_keys (_buffer (self w)) ->
  let w' := fst (run env (schedule_of 0 ops) (w, [])) in
  rows_sunk (trace w') + rows_buffered (_buffer (self w'))
  = rows_sunk (trace w) + rows_buffered (_buffer (self w))
    + appends (schedule_of 0 ops).
Proof.
  intros Henv Hops Hkeys. cbv zeta.
  rewrite run_schedule_of, appends_schedule_of. cbn [fst].
  now apply serial_run_conserves_rows.
Qed.

Lemma sink_accepts_answers : sink_answers sink_accepts.
Proof. split; cbn; eauto. Qed.

Lemma serial_schedule_conserves_rows_witness :
  let ops := [OpAppend (PStr "orders") row_1; OpFlush;
              OpAppend (PStr "orders") row_2; OpFlush] in
  let w' := fst (run sink_accepts (schedule_of 0 ops) (fresh, [])) in
  rows_sunk (trace w') + rows_buffered (_buffer (self w'))
  = rows_sunk (trace fresh) + rows_buffered (_buffer (self fresh))
    + appends (schedule_of 0 ops).
Proof.
  apply (serial_schedule_conserves_rows sink_accepts
           [OpAppend (PStr "orders") row_1; OpFlush;
            OpAppend (PStr "orders") row_2; OpFlush] fresh).
  - exact sink_accepts_answers.
  - repeat constructor.
  - constructor.
Defined.

(** C3 (as stated) fails: with nothing guarding the buffers, an append that
    lands between the writes of a flush and its reset is lost.  Two rows are
    appended, one reaches the sink and none is left in the buffers. *)
Lemma interleaved_flush_loses_row :
  let w' := fst (run sink_accepts lost_row_schedule (fresh, [])) in
  appends lost_row_schedule = 2
  /\ rows_sunk (trace w') = 1
  /\ rows_buffered (_buffer (self w')) = 0
  /\ rows_sunk (trace w') + rows_buffered (_buffer (self w'))
     <> appends lost_row_schedule.
Proof.
  cbv zeta. repeat split. vm_compute. discriminate.
Qed.

(** Two flushes that both write before either resets hand the same row to the
    sink twice. *)
Example interleaved_flushes_duplicate_row :
  let schedule := [Append (PStr "orders") row_1;
                   FlushWrite 0; FlushWrite 1; FlushReset 0; FlushReset 1] in
  let w' := fst (run sink_accepts schedule (fresh, [])) in
  appends schedule = 1 /\ rows_sunk (trace w') = 2.
Proof. repeat split. Qed.

End RaceProps.

(** ** The columns of a row *)

Module RowProps.
Import Py CDC Engine Runner Samples RunSamples CDCProps.

Local Open Scope string_scope.
Local Open Scope Z_scope.

Lemma dict_lookup_app (r r' : row) (k : string) :
  dict_lookup (r ++ r')%list k
  = match dict_lookup r k with
    | Some x => Some x
    | None => dict_lookup r' k
    end.
Proof.
  induction r as [ | [k0 v0] rest IH]; cbn; [reflexivity | ].
  destruct (String.eqb k0 k); [reflexivity | exact IH].
Qed.

(** Setting a key the row does not have adds it at the end. *)
Lemma row_set_fresh (r : row) (k : string) (v : pyval) :
  row_get r k = None -> row_set r k v = (r ++ [(k, v)])%list.
Proof.
  unfold row_get. induction r as [ | [k0 v0] rest IH]; cbn; [reflexivity | ].
  destruct (String.eqb k0 k); [discriminate | ].
  intros H. now rewrite IH.
Qed.

Lemma col_key_eqb (k k' : string) :
  String.eqb ("col_" ++ k) ("col_" ++ k') = String.eqb k k'.
Proof. reflexivity. Qed.

(** With distinct keys that the row does not have yet, the loop adds one
    column per item, in the order of the items. *)
Lemma flatten_after_fresh (items : list (string * pyval)) :
  NoDup (map fst items) ->
  forall r : row,
    (forall kv, In kv items -> row_get r ("col_" ++ fst kv) = None) ->
    flatten_after items r = (r ++ map flat_column items)%list.
Proof.
  unfold flatten_after.
  induction items as [ | kv rest IH]; intros Hnodup r Hfresh; cbn [fold_left map].
  - now rewrite app_nil_r.
  - inversion Hnodup as [ | ? ? Hnotin Hrest]; subst.
    rewrite row_set_fresh by (apply Hfresh; now left).
    rewrite IH; [ | assumption | ].
    + rewrite <- app_assoc. reflexivity.
    + intros kv' Hin. unfold row_get. rewrite dict_lookup_app.
      fold (row_get r ("col_" ++ fst kv')).
      rewrite Hfresh by (now right).
      cbn [dict_lookup]. rewrite col_key_eqb.
      destruct (String.eqb (fst kv) (fst kv')) eqn:Heq; [ | reflexivity].
      apply String.eqb_eq in Heq. exfalso. apply Hnotin. rewrite Heq.
      now apply in_map.
Qed.

(** What a projection that returns has computed. *)
Lemma to_bigquery_row_inv (e : CDCEvent) (clock : nat -> Z) (reads n : nat) (r : row) :
  to_bigquery_row e clock reads = (Ok r, n) ->
  exists us,
    hashable (operation e) = true
    /\ utcfromtimestamp_ms (timestamp_ms e) = Ok us
    /\ negb (truthy (after e)) || is_dict (after e) = true
    /\ n = S reads
    /\ r = projected e us (clock reads).
Proof.
  intros H.
  destruct (hashable (operation e)) eqn:Hop;
    [ | unfold to_bigquery_row, operation_label in H; rewrite Hop in H;
        discriminate].
  destruct (utcfromtimestamp_ms (timestamp_ms e)) as [us | x] eqn:Hus;
    [ | unfold to_bigquery_row, operation_label in H; rewrite Hop, Hus in H;
        discriminate].
  assert (negb (truthy (after e)) || is_dict (after e) = true) as Hafter.
  { unfold to_bigquery_row, operation_label in H. rewrite Hop, Hus in H.
    cbn [rbind] in H.
    destruct (after e) as [ | b | k | s | xs | items]; try reflexivity;
      destruct (truthy _) eqn:Ht; try reflexivity; discriminate. }
  rewrite (to_bigquery_row_ok e clock reads us Hop Hus Hafter) in H.
  injection H as <- <-. exists us. repeat split; assumption.
Qed.

(** The columns of a row, in order: the seven audit columns of the dict
    literal, the event time being the ISO text of some microsecond count,
    then one [col_<key>] column per key of the after image, holding [str] of
    the value, or null for a null value.  A record whose after image is falsy
    has the audit columns only.  The clock is read once. *)
Theorem row_columns (e : CDCEvent) (clock : nat -> Z) (reads n : nat) (r : row) :
  to_bigquery_row e clock reads = (Ok r, n) ->
  NoDup (map fst (items_of (after e))) ->
  exists label us,
    operation_label e = Ok label
    /\ r = (audit_columns e label us (clock reads)
            ++ map flat_column (items_of (after e)))%list
    /\ n = S reads.
Proof.
  intros Hrow Hkeys.
  destruct (to_bigquery_row_inv e clock reads n r Hrow)
    as (us & Hop & _ & _ & -> & ->).
  exists (label_lookup operation_labels (operation e)), us.
  split; [unfold operation_label; now rewrite Hop | ].
  split; [ | reflexivity].
  unfold projected. cbv zeta.
  destruct (after e) as [ | b | k | s | xs | items]; cbn [items_of map] in *;
    try (now rewrite app_nil_r).
  apply flatten_after_fresh; [exact Hkeys | ].
  intros kv _. reflexivity.
Qed.

Lemma row_columns_witness :
  exists label us,
    operation_label order_at_zero = Ok label
    /\ projected order_at_zero 0 (clock_2023 0%nat)
       = (audit_columns order_at_zero label us (clock_2023 0%nat)
          ++ [("col_order_id", PStr "1")])%list
    /\ 1%nat = 1%nat.
Proof.
  apply (row_columns order_at_zero clock_2023 0 1
           (projected order_at_zero 0 (clock_2023 0%nat)) eq_refl).
  cbn. constructor; [intros [] | constructor].
Defined.

End RowProps.

(** ** The message handler *)

Module HandlerProps.
Import Py CDC Engine Race Runner Samples RunSamples CDCProps EngineProps RaceProps RowProps.

Local Open Scope string_scope.
Local Open Scope Z_scope.

Lemma set_utc_reads_same (w : World) : set_utc_reads (utc_reads w) w = w.
Proof. now destruct w. Qed.

(** Lines 227-238 either buffer and acknowledge the message, or raise with
    the engine, the log and the bus as they were. *)
Lemma buffer_message_inv (m : Message) (env : Env) (w w1 : World) (res : result unit) :
  buffer_message m env w = (res, w1) ->
  (exists payload e r,
      data m = Json payload
      /\ from_debezium payload = Ok e
      /\ to_bigquery_row e (utcnow env) (utc_reads w) = (Ok r, S (utc_reads w))
      /\ hashable (table_name e) = true
      /\ res = Ok tt
      /\ w1 = accepted m (table_name e) r w)
  \/ (exists x reads, res = Raise x /\ w1 = set_utc_reads reads w).
Proof.
  unfold buffer_message, bind, lift, json_loads, clocked.
  destruct (data m) as [ | | payload] eqn:Hdata.
  - intros [= <- <-]. right. exists UnicodeDecodeError, (utc_reads w).
    now rewrite set_utc_reads_same.
  - intros [= <- <-]. right. exists JSONDecodeError, (utc_reads w).
    now rewrite set_utc_reads_same.
  - destruct (from_debezium payload) as [e | x] eqn:Hparse.
    + destruct (to_bigquery_row e (utcnow env) (utc_reads w)) as [[r | x] n] eqn:Hrow;
        cbn [fst snd].
      * unfold buffer_append.
        destruct (hashable (table_name e)) eqn:Htable; cbn [negb].
        -- destruct (to_bigquery_row_inv _ _ _ _ _ Hrow) as (us & _ & _ & _ & -> & _).
           intros [= <- <-]. left. exists payload, e, r. repeat split; assumption.
        -- intros [= <- <-]. right. eauto.
      * intros [= <- <-]. right. eauto.
    + intros [= <- <-]. right. exists x, (utc_reads w).
      now rewrite set_utc_reads_same.
Qed.

(** [_should_flush] returns, and at most reads the clock. *)
Lemma should_flush_cases (env : Env) (w : World) :
  exists b w1,
    _should_flush env w = (Ok b, w1)
    /\ (w1 = w \/ w1 = tick_time w)
    /\ (batch_size (config (self w)) <= _buffer_count (self w) -> b = true /\ w1 = w).
Proof.
  unfold _should_flush, bind, get_self, read_time, ret.
  destruct (Z.leb_spec (batch_size (config (self w))) (_buffer_count (self w))).
  - exists true, w. repeat split; auto.
  - destruct (_ <=? _)%float; eexists; eexists;
      (split; [reflexivity | split; [now right | lia]]).
Qed.

(** What a flush does, by cases: nothing on empty buffers; else it resets the
    buffers when the writes return and raises when one of them raises. *)
Lemma flush_cases (env : Env) (w : World) :
  (_buffer (self w) = [] /\ _flush_all_buffers env w = (Ok tt, w))
  \/ (exists total w1,
         _buffer (self w) <> []
         /\ write_all (_buffer (self w)) 0 env w = (Ok total, w1)
         /\ same_engine w w1
         /\ _flush_all_buffers env w = (Ok tt, flushed env total w1))
  \/ (exists x w1,
         _buffer (self w) <> []
         /\ write_all (_buffer (self w)) 0 env w = (Raise x, w1)
         /\ same_engine w w1
         /\ _flush_all_buffers env w = (Raise x, w1)).
Proof.
  assert (_buffer (self w) = [] \/ _buffer (self w) <> []) as [Hb | Hb]
    by (destruct (_buffer (self w)); [now left | now right]).
  - left. split; [exact Hb | ].
    unfold _flush_all_buffers, bind, get_self. now rewrite Hb.
  - right.
    destruct (write_all (_buffer (self w)) 0 env w) as [[total | x] w1] eqn:Hw.
    + left. exists total, w1. repeat split; try assumption;
        try (apply (write_all_frame _ _ _ _ _ _ Hw)).
      now apply flush_after_writes.
    + right. exists x, w1. repeat split; try assumption;
        try (apply (write_all_frame _ _ _ _ _ _ Hw)).
      now apply flush_after_raise.
Qed.

(** A flush leaves the bus, the running flag and the configuration alone. *)
Lemma flush_frame (env : Env) (w w' : World) (res : result unit) :
  _flush_all_buffers env w = (res, w') ->
  bus w' = bus w
  /\ _running (self w') = _running (self w)
  /\ config (self w') = config (self w)
  /\ utc_reads w' = utc_reads w.
Proof.
  intros H.
  destruct (flush_cases env w)
    as [[_ H1] | [(total & w1 & _ & _ & Hsame & H1) | (x & w1 & _ & _ & Hsame & H1)]];
    rewrite H1 in H; injection H as <- <-.
  - repeat split.
  - destruct Hsame as (_ & _ & _ & Hr & _ & Hc & Hbus & _ & Hu). cbn.
    repeat split; assumption.
  - destruct Hsame as (_ & _ & _ & Hr & _ & Hc & Hbus & _ & Hu).
    repeat split; assumption.
Qed.

(** The two lines that end the handler: the policy, then the flush when it is
    due. *)
Lemma flush_if_due_cases (env : Env) (w w' : World) (res : result unit) :
  flush_if_due env w = (res, w') ->
  exists w1,
    (w1 = w \/ w1 = tick_time w)
    /\ ((res = Ok tt /\ w' = w1) \/ _flush_all_buffers env w1 = (res, w')).
Proof.
  unfold flush_if_due, bind.
  destruct (should_flush_cases env w) as (b & w1 & Hs & Hw1 & _).
  rewrite Hs. intros H. exists w1. split; [exact Hw1 | ].
  destruct b.
  - now right.
  - left. injection H as <- <-. now split.
Qed.

Lemma flush_if_due_frame (env : Env) (w w' : World) (res : result unit) :
  flush_if_due env w = (res, w') ->
  bus w' = bus w
  /\ _running (self w') = _running (self w)
  /\ config (self w') = config (self w)
  /\ utc_reads w' = utc_reads w.
Proof.
  intros H. destruct (flush_if_due_cases env w w' res H) as (w1 & Hw1 & Hres).
  assert (bus w1 = bus w /\ self w1 = self w /\ utc_reads w1 = utc_reads w)
    as (Hb & Hs & Hu) by (destruct Hw1 as [-> | ->]; repeat split).
  destruct Hres as [[_ ->] | Hflush].
  - rewrite Hs. repeat split; assumption.
  - destruct (flush_frame env w1 w' res Hflush) as (? & ? & ? & ?).
    rewrite <- Hs. repeat split; congruence.
Qed.

Lemma appended_nonempty (b : pydict (list row)) (table : pyval) (r : row) :
  appended b table r <> [].
Proof.
  unfold appended.
  destruct (pd_get b table); destruct b as [ | [k v] rest]; cbn;
    try discriminate; destruct (py_eqb k table); discriminate.
Qed.

(** A message is acknowledged when its row is buffered, before the flush
    policy runs.  When the flush that follows the append raises, the handler
    tells the bus [Ack] and then [Nack] for the same message, and the row
    stays buffered and counted. *)
Theorem failed_flush_nacks_acked_message
    (m : Message) (env : Env) (w w1 w2 : World) (x : exn) :
  buffer_message m env w = (Ok tt, w1) ->
  flush_if_due env w1 = (Raise x, w2) ->
  exists event,
    _handle_message m env w = (Ok tt, rejected m event w2)
    /\ bus (rejected m event w2)
       = (bus w ++ [Ack (message_id m); Nack (message_id m)])%list
    /\ _buffer (self (rejected m event w2)) = _buffer (self w1)
    /\ _buffer (self w1) <> []
    /\ _buffer_count (self (rejected m event w2)) = _buffer_count (self w) + 1.
Proof.
  intros Hbuf Hflush.
  destruct (buffer_message_inv m env w w1 _ Hbuf)
    as [(payload & e & r & _ & _ & _ & _ & _ & Hw1) | (y & reads & Hy & _)];
    [ | discriminate].
  destruct (flush_if_due_frame env w1 w2 _ Hflush) as (Hbus & _).
  destruct (flush_if_due_cases env w1 w2 _ Hflush) as (wt & Hwt & [[Hno _] | Hfl]);
    [discriminate | ].
  assert (self wt = self w1) as Hself by (destruct Hwt as [-> | ->]; reflexivity).
  destruct (flush_cases env wt)
    as [[_ H1] | [(total & wa & _ & _ & _ & H1) | (y & wa & _ & _ & Hsame & H1)]];
    rewrite H1 in Hfl; try discriminate.
  injection Hfl as -> ->.
  destruct Hsame as (Hb & Hc & _).
  assert (exists event, _handle_message m env w = (Ok tt, rejected m event w2))
    as [event Hevent].
  { rewrite (handle_message_buffered m env w w1 Hbuf).
    unfold try_except. rewrite Hflush. destruct x; eexists; reflexivity. }
  exists event. split; [exact Hevent | ].
  cbn [rejected add_bus add_log bus self].
  rewrite Hbus, Hb, Hc, Hself, Hw1.
  split; [cbn; now rewrite <- app_assoc | ].
  split; [reflexivity | ].
  split; [apply appended_nonempty | reflexivity].
Qed.

(** With a batch size of 1 the first row makes the flush due; with the sink
    down the message is acknowledged, then nacked. *)
Lemma failed_flush_nacks_acked_message_witness :
  exists event w2,
    _handle_message (message 1 (Json order_created)) sink_down eager
    = (Ok tt, rejected (message 1 (Json order_created)) event w2)
    /\ bus (rejected (message 1 (Json order_created)) event w2)
       = [Ack 1%nat; Nack 1%nat]
    /\ _buffer_count (self (rejected (message 1 (Json order_created)) event w2))
       = 1.
Proof.
  destruct (failed_flush_nacks_acked_message
              (message 1 (Json order_created)) sink_down eager
              (snd (buffer_message (message 1 (Json order_created)) sink_down eager))
              (snd (flush_if_due sink_down
                      (snd (buffer_message (message 1 (Json order_created))
                              sink_down eager))))
              SinkError eq_refl eq_refl)
    as (event & Hrun & Hbus & _ & _ & Hcount).
  exists event. eexists. split; [exact Hrun | ]. split; [exact Hbus | exact Hcount].
Defined.

(** The row that fills the batch is flushed by the call that buffers it: with
    a client that answers, the handler hands every buffered row and the new
    one to the sink, leaves the buffers empty and the count at 0, and has
    acknowledged the message.  The size test needs no clock; the one reading
    taken is the new last-flush time. *)
Theorem full_batch_flushes_in_handler
    (m : Message) (payload : pyval) (env : Env) (w : World) :
  data m = Json payload ->
  valid_envelope payload = true ->
  hashable (table_of payload) = true ->
  batch_size (config (self w)) <= _buffer_count (self w) + 1 ->
  sink_answers env ->
  hashable_keys (_buffer (self w)) ->
  exists w',
    _handle_message m env w = (Ok tt, w')
    /\ _buffer (self w') = []
    /\ _buffer_count (self w') = 0
    /\ bus w' = (bus w ++ [Ack (message_id m)])%list
    /\ rows_sunk (trace w')
       = rows_sunk (trace w) + rows_buffered (_buffer (self w)) + 1
    /\ _last_flush_time (self w') = time_time env (time_reads w).
Proof.
  intros Hdata Hvalid Htable Hfull Henv Hkeys.
  destruct (buffer_message_accepts m payload env w Hdata Hvalid Htable)
    as (e & us & _ & _ & _ & _ & _ & _ & Hbuf).
  set (r := projected e us (utcnow env (utc_reads w))) in *.
  set (w1 := accepted m (table_of payload) r w) in *.
  rewrite (handle_message_buffered m env w w1 Hbuf).
  unfold try_except, flush_if_due, bind.
  destruct (should_flush_cases env w1) as (b & wt & Hs & _ & Hsize).
  destruct Hsize as [-> ->]; [subst w1; cbn; lia | ].
  rewrite Hs.
  assert (hashable_keys (_buffer (self w1))) as Hkeys1
    by (subst w1; cbn; now apply hashable_keys_appended).
  assert (_buffer (self w1) <> []) as Hne
    by (subst w1; cbn; apply appended_nonempty).
  destruct (write_all_answers env (_buffer (self w1)) Henv Hkeys1 0 w1)
    as (total & wa & Hall & Hsunk).
  rewrite (flush_after_writes env w1 wa total Hne Hall).
  destruct (write_all_frame _ _ _ _ _ _ Hall)
    as (_ & _ & _ & _ & _ & _ & Hbus & Htime & _).
  exists (flushed env total wa). split; [reflexivity | ].
  cbn [flushed self bus trace upd_self tick_time add_log set_last_flush_time
         set_buffer_count set_buffer _buffer _buffer_count _last_flush_time].
  rewrite Hbus, Htime, Hsunk. subst w1. cbn [accepted self bus trace time_reads
    add_bus upd_self set_utc_reads set_buffer set_buffer_count _buffer].
  rewrite rows_buffered_appended. repeat split. lia.
Qed.

Lemma full_batch_flushes_in_handler_witness :
  exists w',
    _handle_message (message 1 (Json order_created)) sink_accepts eager = (Ok tt, w')
    /\ _buffer (self w') = []
    /\ _buffer_count (self w') = 0
    /\ bus w' = [Ack 1%nat]
    /\ rows_sunk (trace w') = 1
    /\ _last_flush_time (self w') = 1002%float.
Proof.
  apply (full_batch_flushes_in_handler (message 1 (Json order_created))
           order_created sink_accepts eager eq_refl eq_refl eq_refl).
  - cbn. lia.
  - exact sink_accepts_answers.
  - constructor.
Defined.

Lemma should_flush_by_time (env : Env) (w : World) :
  float_ge (time_time env (time_reads w) - _last_flush_time (self w))%float
    (flush_interval_sec (config (self w))) ->
  exists w1,
    _should_flush env w = (Ok true, w1) /\ (w1 = w \/ w1 = tick_time w).
Proof.
  unfold float_ge, _should_flush, bind, get_self, read_time, ret. intros Hdue.
  destruct (_ <=? _)%Z.
  - exists w. split; [reflexivity | now left].
  - rewrite Hdue. exists (tick_time w). split; [reflexivity | now right].
Qed.

(** A message that arrives once the flush interval has passed since the last
    flush is flushed by the call that buffers it, together with whatever was
    buffered: with a client that answers, the buffers are empty when the
    handler returns.  So the first message after an idle period goes to the
    sink alone. *)
Theorem overdue_message_is_flushed_at_once
    (m : Message) (payload : pyval) (env : Env) (w : World) :
  data m = Json payload ->
  valid_envelope payload = true ->
  hashable (table_of payload) = true ->
  float_ge (time_time env (time_reads w) - _last_flush_time (self w))%float
    (flush_interval_sec (config (self w))) ->
  sink_answers env ->
  hashable_keys (_buffer (self w)) ->
  exists w',
    _handle_message m env w = (Ok tt, w')
    /\ _buffer (self w') = []
    /\ _buffer_count (self w') = 0
    /\ bus w' = (bus w ++ [Ack (message_id m)])%list
    /\ rows_sunk (trace w')
       = rows_sunk (trace w) + rows_buffered (_buffer (self w)) + 1.
Proof.
  intros Hdata Hvalid Htable Hdue Henv Hkeys.
  destruct (buffer_message_accepts m payload env w Hdata Hvalid Htable)
    as (e & us & _ & _ & _ & _ & _ & _ & Hbuf).
  set (r := projected e us (utcnow env (utc_reads w))) in *.
  set (w1 := accepted m (table_of payload) r w) in *.
  rewrite (handle_message_buffered m env w w1 Hbuf).
  unfold try_except, flush_if_due, bind.
  destruct (should_flush_by_time env w1 Hdue) as (wt & -> & Hwt).
  assert (self wt = self w1 /\ trace wt = trace w1 /\ bus wt = bus w1)
    as (Hs & Ht & Hbt) by (destruct Hwt as [-> | ->]; repeat split).
  assert (hashable_keys (_buffer (self wt))) as Hkeys1
    by (rewrite Hs; subst w1; cbn; now apply hashable_keys_appended).
  assert (_buffer (self wt) <> []) as Hne
    by (rewrite Hs; subst w1; cbn; apply appended_nonempty).
  destruct (write_all_answers env (_buffer (self wt)) Henv Hkeys1 0 wt)
    as (total & wa & Hall & Hsunk).
  rewrite (flush_after_writes env wt wa total Hne Hall).
  destruct (write_all_frame _ _ _ _ _ _ Hall)
    as (_ & _ & _ & _ & _ & _ & Hbus & _).
  exists (flushed env total wa). split; [reflexivity | ].
  cbn [flushed self bus trace upd_self tick_time add_log set_last_flush_time
         set_buffer_count set_buffer _buffer _buffer_count].
  rewrite Hbus, Hsunk, Hs, Ht, Hbt. subst w1. cbn [accepted self bus trace
    add_bus upd_self set_utc_reads set_buffer set_buffer_count _buffer].
  rewrite rows_buffered_appended. repeat split. lia.
Qed.

(** An engine idle since time 1000 receives its first message at 1002 with a
    flush interval of 2 seconds. *)
Lemma overdue_message_is_flushed_at_once_witness :
  exists w',
    _handle_message (message 1 (Json order_created)) sink_accepts idle = (Ok tt, w')
    /\ _buffer (self w') = []
    /\ _buffer_count (self w') = 0
    /\ bus w' = [Ack 1%nat]
    /\ rows_sunk (trace w') = 1.
Proof.
  apply (overdue_message_is_flushed_at_once (message 1 (Json order_created))
           order_created sink_accepts idle eq_refl eq_refl eq_refl).
  - reflexivity.
  - exact sink_accepts_answers.
  - constructor.
Defined.

End HandlerProps.

(** ** The buffers and the sink *)

Module BufferProps.
Import Py CDC Engine Race Runner Samples RunSamples CDCProps EngineProps RaceProps
  HandlerProps.

Local Open Scope string_scope.
Local Open Scope Z_scope.

(** Keys that are equal to a third key are equal to each other. *)
Lemma py_eqb_trans (a b c : pyval) :
  py_eqb a b = true -> py_eqb a c = true -> py_eqb b c = true.
Proof.
  destruct a as [ | [ | ] | x | s | xs | it], b as [ | [ | ] | y | t | ys | jt],
    c as [ | [ | ] | z | u | zs | kt]; cbn; try congruence;
    rewrite ?Z.eqb_eq, ?String.eqb_eq; intros; subst; try congruence;
    try (apply Z.eqb_refl); try (apply String.eqb_refl); try lia.
Qed.

Lemma pd_get_set_other {V} (d : pydict V) (k k' : pyval) (v : V) :
  py_eqb k k' = false -> pd_get (pd_set d k v) k' = pd_get d k'.
Proof.
  intros Hk. induction d as [ | [k0 v0] rest IH]; cbn.
  - now rewrite Hk.
  - destruct (py_eqb k0 k) eqn:H0; cbn.
    + destruct (py_eqb k0 k') eqn:H1; [ | reflexivity].
      rewrite (py_eqb_trans k0 k k' H0 H1) in Hk. discriminate.
    + destruct (py_eqb k0 k'); [reflexivity | exact IH].
Qed.

Lemma pd_set_keys {V} (d : pydict V) (k : pyval) (v : V) :
  map fst (pd_set d k v)
  = match pd_get d k with
    | Some _ => map fst d
    | None => (map fst d ++ [k])%list
    end.
Proof.
  induction d as [ | [k0 v0] rest IH]; cbn; [reflexivity | ].
  destruct (py_eqb k0 k); cbn; [reflexivity | ].
  rewrite IH. now destruct (pd_get rest k).
Qed.

(** An append puts the row last in its table's buffer and touches nothing
    else: the other tables keep their rows, and the tables keep their order, a
    new table coming last. *)
Theorem append_touches_one_table
    (b : pydict (list row)) (table : pyval) (r : row) :
  hashable table = true ->
  pd_get (appended b table r) table
  = Some (match pd_get b table with Some rows => rows ++ [r] | None => [r] end)%list
  /\ (forall other, py_eqb table other = false ->
                    pd_get (appended b table r) other = pd_get b other)
  /\ map fst (appended b table r)
     = match pd_get b table with
       | Some _ => map fst b
       | None => (map fst b ++ [table])%list
       end.
Proof.
  intros Htable. unfold appended. split; [ | split].
  - destruct (pd_get b table); now apply pd_get_set.
  - intros other Hother.
    destruct (pd_get b table); now apply pd_get_set_other.
  - destruct (pd_get b table) eqn:Hget; rewrite pd_set_keys, Hget; reflexivity.
Qed.

Lemma append_touches_one_table_witness :
  pd_get (appended [(PStr "orders", [row_1])] (PStr "products") row_2) (PStr "products")
  = Some [row_2]
  /\ pd_get (appended [(PStr "orders", [row_1])] (PStr "products") row_2) (PStr "orders")
     = Some [row_1]
  /\ map fst (appended [(PStr "orders", [row_1])] (PStr "products") row_2)
     = [PStr "orders"; PStr "products"].
Proof.
  destruct (append_touches_one_table [(PStr "orders", [row_1])] (PStr "products")
              row_2 eq_refl) as (Hsame & Hother & Hkeys).
  split; [exact Hsame | ].
  split; [exact (Hother (PStr "orders") eq_refl) | exact Hkeys].
Defined.

Lemma inserts_app (l1 l2 : list client_call) :
  inserts (l1 ++ l2) = (inserts l1 ++ inserts l2)%list.
Proof.
  induction l1 as [ | [id | id rows] rest IH]; cbn [inserts app];
    [reflexivity | exact IH | now rewrite IH].
Qed.

(** A table that cannot be created: [write_batch] raises the client's
    exception after the one request, logs it, sends no insert request and
    does not remember the table, so the next batch asks for it again. *)
Theorem failed_create_sends_no_rows
    (env : Env) (w : World) (table : pyval) (rows : list row) :
  rows <> [] ->
  hashable table = true ->
  table_ready env w table = false ->
  exists w',
    write_batch table rows env w = (Raise SinkError, w')
    /\ trace w' = (trace w ++ [CreateTable (table_id_of (sink (self w)) table)])%list
    /\ inserts (trace w') = inserts (trace w)
    /\ log w' = (log w ++ [(Error, "Failed to create table")])%list
    /\ self w' = self w
    /\ pd_get (_table_schemas (sink (self w'))) table = None.
Proof.
  intros Hrows Htable Hready.
  unfold table_ready in Hready.
  destruct (pd_get (_table_schemas (sink (self w))) table) eqn:Hget;
    [discriminate | ].
  destruct rows as [ | r rows]; [congruence | ].
  eexists. split.
  - unfold write_batch, bind at 1, ensure_table_exists, bind at 1, get_self.
    rewrite Htable, Hget. cbn [negb].
    unfold bind at 1, try_except, bind at 1, client_create_table.
    rewrite Hready. reflexivity.
  - cbn. rewrite inserts_app, app_nil_r, Hget. repeat split.
Qed.

Lemma failed_create_sends_no_rows_witness :
  exists w',
    write_batch (PStr "orders") [row_1; row_2] sink_down fresh = (Raise SinkError, w')
    /\ trace w' = [CreateTable "local-dev.raw.cdc_orders"]
    /\ inserts (trace w') = []
    /\ log w' = [(Error, "Failed to create table")]
    /\ self w' = self fresh
    /\ pd_get (_table_schemas (sink (self w'))) (PStr "orders") = None.
Proof.
  apply (failed_create_sends_no_rows sink_down fresh (PStr "orders") [row_1; row_2]).
  - discriminate.
  - reflexivity.
  - reflexivity.
Defined.

Lemma ensured_sink_ids (table : pyval) (w : World) :
  sink_project_id (sink (self (ensured table w))) = sink_project_id (sink (self w))
  /\ sink_dataset_id (sink (self (ensured table w))) = sink_dataset_id (sink (self w))
  /\ inserts (trace (ensured table w)) = inserts (trace w).
Proof.
  unfold ensured. destruct (pd_get _ table); cbn; rewrite ?inserts_app, ?app_nil_r;
    repeat split.
Qed.

Lemma table_id_of_ids (s s' : BigQueryCDCSink) (table : pyval) :
  sink_project_id s' = sink_project_id s ->
  sink_dataset_id s' = sink_dataset_id s ->
  table_id_of s' table = table_id_of s table.
Proof. unfold table_id_of. now intros -> ->. Qed.

Lemma write_batch_inserts (env : Env) (w : World) (table : pyval) (rows : list row) :
  sink_answers env ->
  hashable table = true ->
  rows <> [] ->
  exists written w1,
    write_batch table rows env w = (Ok written, w1)
    /\ inserts (trace w1)
       = (inserts (trace w) ++ [(table_id_of (sink (self w)) table, rows)])%list
    /\ sink_project_id (sink (self w1)) = sink_project_id (sink (self w))
    /\ sink_dataset_id (sink (self w1)) = sink_dataset_id (sink (self w)).
Proof.
  intros [Hcreate Hinsert] Htable Hrows.
  destruct rows as [ | r rows]; [congruence | ].
  assert (table_ready env w table = true) as Hready.
  { unfold table_ready. destruct (pd_get _ table); [reflexivity | apply Hcreate]. }
  destruct (Hinsert (List.length (trace (ensured table w)))
              (table_id_of (sink (self w)) table) (r :: rows)) as [errors Herr].
  destruct (ensured_sink_ids table w) as (Hp & Hd & Hins).
  eexists. eexists. split.
  - apply (write_batch_after_ensure env w (ensured table w) table
             (table_id_of (sink (self w)) table) r rows errors);
      [now apply ensure_table_exists_ready | exact Herr].
  - cbn [trace self add_log record_call]. rewrite inserts_app, Hins.
    repeat split; assumption.
Qed.

Lemma write_all_inserts (env : Env) (items : pydict (list row)) :
  sink_answers env ->
  hashable_keys items ->
  no_empty_buffer items ->
  forall (acc : Z) (w : World),
  exists total w1,
    write_all items acc env w = (Ok total, w1)
    /\ inserts (trace w1)
       = (inserts (trace w) ++ map (batch_of (sink (self w))) items)%list.
Proof.
  intros Henv Hkeys Hne. revert Hne.
  induction Hkeys as [ | [table rows] rest Hhead Hrest IH]; intros Hne acc w.
  - exists acc, w. split; [reflexivity | cbn; now rewrite app_nil_r].
  - inversion Hne as [ | ? ? Hrows Hne']; subst. cbn [fst snd] in *.
    destruct (write_batch_inserts env w table rows Henv Hhead Hrows)
      as (written & w1 & Hbatch & Hins1 & Hp & Hd).
    destruct (IH Hne' (acc + written) w1) as (total & w2 & Hall & Hins2).
    exists total, w2. split.
    + cbn [write_all]. unfold bind. now rewrite Hbatch.
    + rewrite Hins2, Hins1, <- app_assoc. cbn [map app]. f_equal. f_equal.
      apply map_ext. intros kv. unfold batch_of.
      now rewrite (table_id_of_ids _ _ _ Hp Hd).
Qed.

(** A flush sends one batch per table, the tables in the order in which they
    first received a row, each batch holding the table's rows in the order
    they were appended. *)
Theorem flush_sends_tables_in_order (env : Env) (w : World) :
  sink_answers env ->
  hashable_keys (_buffer (self w)) ->
  no_empty_buffer (_buffer (self w)) ->
  exists w',
    _flush_all_buffers env w = (Ok tt, w')
    /\ inserts (trace w')
       = (inserts (trace w) ++ map (batch_of (sink (self w))) (_buffer (self w)))%list.
Proof.
  intros Henv Hkeys Hne.
  destruct (flush_cases env w)
    as [[Hb H1] | [(total & w1 & _ & Hw & _ & H1) | (x & w1 & _ & Hw & _)]].
  - exists w. split; [exact H1 | ]. rewrite Hb. cbn. now rewrite app_nil_r.
  - destruct (write_all_inserts env _ Henv Hkeys Hne 0 w) as (t & w2 & Hall & Hins).
    rewrite Hall in Hw. injection Hw as <- <-.
    exists (flushed env t w2). split; [exact H1 | exact Hins].
  - destruct (write_all_inserts env _ Henv Hkeys Hne 0 w) as (t & w2 & Hall & _).
    rewrite Hall in Hw. discriminate.
Qed.

Lemma flush_sends_tables_in_order_witness :
  exists w',
    _flush_all_buffers (sink_rejects 0) two_tables = (Ok tt, w')
    /\ inserts (trace w')
       = [("local-dev.raw.cdc_orders", [row_1; row_2]);
          ("local-dev.raw.cdc_products", [row_1])].
Proof.
  apply (flush_sends_tables_in_order (sink_rejects 0) two_tables).
  - split; cbn; eauto.
  - repeat constructor.
  - repeat constructor; discriminate.
Defined.

Lemma write_all_total (env : Env) (items : pydict (list row)) :
  sink_accepts_all env ->
  hashable_keys items ->
  forall (acc : Z) (w : World),
  exists w1, write_all items acc env w = (Ok (acc + rows_buffered items), w1).
Proof.
  intros [Hcreate Hinsert] Hkeys.
  induction Hkeys as [ | [table rows] rest Hhead Hrest IH]; intros acc w.
  - exists w. cbn. now rewrite Z.add_0_r.
  - cbn [fst] in Hhead. cbn [write_all rows_buffered]. unfold bind.
    destruct rows as [ | r rows].
    + cbn [write_batch ret]. destruct (IH (acc + 0) w) as [w1 H1].
      exists w1. rewrite H1. f_equal. f_equal. cbn. lia.
    + assert (table_ready env w table = true) as Hready.
      { unfold table_ready. destruct (pd_get _ table); [reflexivity | apply Hcreate]. }
      rewrite (write_batch_after_ensure env w (ensured table w) table
                 (table_id_of (sink (self w)) table) r rows []
                 (ensure_table_exists_ready env w table Hhead Hready)
                 (Hinsert _ _ _)).
      destruct (IH (acc + (Z.of_nat (List.length (r :: rows)) - Z.of_nat 0))
                  (add_log (batch_log [])
                     (record_call
                        (InsertRowsJson (table_id_of (sink (self w)) table) (r :: rows))
                        (ensured table w)))) as [w1 H1].
      exists w1. cbn [List.length] in *. rewrite H1. f_equal. f_equal. lia.
Qed.

(** When the client accepts every row, a flush adds the number of buffered
    rows to the processed count. *)
Theorem flush_counts_accepted_rows (env : Env) (w : World) :
  sink_accepts_all env ->
  hashable_keys (_buffer (self w)) ->
  exists w',
    _flush_all_buffers env w = (Ok tt, w')
    /\ _total_processed (self w')
       = _total_processed (self w) + rows_buffered (_buffer (self w)).
Proof.
  intros Henv Hkeys.
  destruct (write_all_total env _ Henv Hkeys 0 w) as [w2 Hall].
  destruct (flush_cases env w)
    as [[Hb H1] | [(total & w1 & _ & Hw & Hsame & H1) | (x & w1 & _ & Hw & _)]].
  - exists w. split; [exact H1 | ]. rewrite Hb. cbn. lia.
  - rewrite Hall in Hw. injection Hw as <- <-.
    exists (flushed env (0 + rows_buffered (_buffer (self w))) w2).
    split; [exact H1 | ].
    destruct Hsame as (_ & _ & _ & _ & Htotal & _). cbn. rewrite Htotal. lia.
  - rewrite Hall in Hw. discriminate.
Qed.

Lemma flush_counts_accepted_rows_witness :
  exists w',
    _flush_all_buffers sink_accepts two_tables = (Ok tt, w')
    /\ _total_processed (self w') = 3.
Proof.
  apply (flush_counts_accepted_rows sink_accepts two_tables).
  - split; reflexivity.
  - repeat constructor.
Defined.

End BufferProps.

(** ** The loop and the shutdown *)

Module RunProps.
Import Py CDC Engine Race Runner Samples RunSamples CDCProps EngineProps RaceProps
  HandlerProps BufferProps.

Local Open Scope string_scope.
Local Open Scope Z_scope.

Lemma acks_app (l1 l2 : list bus_call) : acks (l1 ++ l2) = acks l1 + acks l2.
Proof.
  induction l1 as [ | [id | id] rest IH]; cbn [acks app]; lia.
Qed.

(** The handler by steps: either the message is not buffered and only the log
    and the bus change, or it is buffered and acknowledged and the world is
    the one [flush_if_due] leaves, with at most a log line and a [Nack]
    more. *)
Lemma handle_message_steps (m : Message) (env : Env) (w : World) :
  exists w',
    _handle_message m env w = (Ok tt, w')
    /\ ((self w' = self w /\ trace w' = trace w /\ acks (bus w') = acks (bus w))
        \/ (exists table r res w2,
               hashable table = true
               /\ flush_if_due env (accepted m table r w) = (res, w2)
               /\ self w' = self w2
               /\ trace w' = trace w2
               /\ acks (bus w') = acks (bus w) + 1)).
Proof.
  destruct (buffer_message m env w) as [res w1] eqn:Hbuf.
  destruct (buffer_message_inv m env w w1 res Hbuf)
    as [(payload & e & r & _ & _ & _ & Htable & -> & Hw1) | (x & reads & -> & ->)].
  - rewrite (handle_message_buffered m env w w1 Hbuf).
    unfold try_except.
    destruct (flush_if_due env w1) as [res w2] eqn:Hflush.
    destruct (flush_if_due_frame env w1 w2 _ Hflush) as (Hbus & _).
    assert (acks (bus w2) = acks (bus w) + 1) as Hacks.
    { rewrite Hbus, Hw1. cbn [accepted bus add_bus upd_self set_utc_reads].
      rewrite acks_app. cbn. lia. }
    rewrite Hw1 in Hflush.
    destruct res as [[] | x].
    + exists w2. split; [reflexivity | ]. right.
      exists (table_name e), r, (Ok tt), w2. repeat split; assumption.
    + assert (exists event, on_exception m x env w2 = (Ok tt, rejected m event w2))
        as [event ->] by (destruct x; eexists; reflexivity).
      eexists. split; [reflexivity | ]. right.
      exists (table_name e), r, (Raise x), w2.
      repeat split; try assumption.
      cbn [rejected bus add_bus add_log]. rewrite acks_app. cbn. lia.
  - assert (bind (buffer_message m) (fun _ => flush_if_due) env w
            = (Raise x, set_utc_reads reads w)) as Hraise
      by (unfold bind; now rewrite Hbuf).
    destruct (handle_message_raised m env w _ x Hraise) as [event Hevent].
    eexists. split; [exact Hevent | ]. left.
    cbn [rejected bus add_bus add_log self trace set_utc_reads].
    rewrite acks_app. cbn. repeat split. lia.
Qed.

(** *** What the engine keeps true *)

Lemma no_empty_set (b : pydict (list row)) (k : pyval) (rows : list row) :
  rows <> [] -> no_empty_buffer b -> no_empty_buffer (pd_set b k rows).
Proof.
  intros Hrows Hb. unfold no_empty_buffer in *.
  induction Hb as [ | [k' old] rest Hhead Hrest IH]; cbn [pd_set].
  - repeat constructor. exact Hrows.
  - destruct (py_eqb k' k); constructor; auto.
Qed.

Lemma engine_ok_accepted (m : Message) (table : pyval) (r : row) (w : World) :
  hashable table = true -> engine_ok w -> engine_ok (accepted m table r w).
Proof.
  intros Htable (Hkeys & Hne & Hcount). unfold engine_ok. cbn.
  split; [now apply hashable_keys_appended | ].
  split.
  - unfold appended. destruct (pd_get (_buffer (self w)) table);
      apply no_empty_set; try assumption; try discriminate.
    destruct l; discriminate.
  - rewrite rows_buffered_appended. lia.
Qed.

Lemma engine_ok_self (w w' : World) : self w' = self w -> engine_ok w -> engine_ok w'.
Proof. unfold engine_ok. now intros ->. Qed.

Lemma engine_ok_flush (env : Env) (w w' : World) (res : result unit) :
  _flush_all_buffers env w = (res, w') -> engine_ok w -> engine_ok w'.
Proof.
  intros H Hok.
  destruct (flush_cases env w)
    as [[_ H1] | [(total & w1 & _ & _ & _ & H1) | (x & w1 & _ & _ & Hsame & H1)]];
    rewrite H1 in H; injection H as <- <-.
  - exact Hok.
  - unfold engine_ok. cbn. repeat split; constructor.
  - destruct Hsame as (Hb & Hc & _). unfold engine_ok in *. now rewrite Hb, Hc.
Qed.

Lemma engine_ok_flush_if_due (env : Env) (w w' : World) (res : result unit) :
  flush_if_due env w = (res, w') -> engine_ok w -> engine_ok w'.
Proof.
  intros H Hok.
  destruct (flush_if_due_cases env w w' res H) as (w1 & Hw1 & Hres).
  assert (engine_ok w1) as Hok1
    by (apply (engine_ok_self w); [destruct Hw1 as [-> | ->]; reflexivity | exact Hok]).
  destruct Hres as [[_ ->] | Hflush]; [exact Hok1 | ].
  exact (engine_ok_flush env w1 w' res Hflush Hok1).
Qed.

Lemma engine_ok_handle_message (m : Message) (env : Env) (w : World) :
  engine_ok w -> engine_ok (snd (_handle_message m env w)).
Proof.
  intros Hok.
  destruct (handle_message_steps m env w)
    as (w' & -> & [(Hself & _) | (table & r & res & w2 & Ht & Hfl & Hself & _)]);
    cbn [snd].
  - exact (engine_ok_self w w' Hself Hok).
  - apply (engine_ok_self w2 w' Hself).
    apply (engine_ok_flush_if_due env _ w2 res Hfl).
    now apply engine_ok_accepted.
Qed.

Lemma engine_ok_deliver (env : Env) (messages : list Message) :
  forall w : World,
    engine_ok w ->
    exists w', deliver messages env w = (Ok tt, w') /\ engine_ok w'.
Proof.
  induction messages as [ | m rest IH]; intros w Hok; cbn [deliver].
  - exists w. now split.
  - unfold bind.
    destruct (handle_message_steps m env w) as (w1 & H1 & _).
    pose proof (engine_ok_handle_message m env w Hok) as Hok1.
    rewrite H1 in *. cbn [snd] in Hok1. exact (IH w1 Hok1).
Qed.

Lemma engine_ok_sleep (env : Env) (t : Tick) (w : World) :
  engine_ok w ->
  exists w', sleep t env w = (Ok tt, w') /\ engine_ok w'.
Proof.
  intros Hok. unfold sleep, bind.
  destruct (engine_ok_deliver env (delivered t) w Hok) as (w1 & -> & Hok1).
  destruct (signalled t); eexists; (split; [reflexivity | exact Hok1]).
Qed.

Lemma engine_ok_run_loop (env : Env) (schedule : list Tick) :
  forall w : World, engine_ok w -> engine_ok (snd (run_loop schedule env w)).
Proof.
  induction schedule as [ | t rest IH]; intros w Hok; cbn [run_loop];
    unfold bind at 1, get_self; destruct (_running (self w)); try exact Hok.
  unfold bind at 1.
  destruct (engine_ok_sleep env t w Hok) as (w1 & -> & Hok1).
  unfold bind at 1.
  destruct (flush_if_due env w1) as [[[] | x] w2] eqn:Hflush;
    pose proof (engine_ok_flush_if_due env w1 w2 _ Hflush Hok1) as Hok2.
  - exact (IH w2 Hok2).
  - exact Hok2.
Qed.

(** [run] by cases: the subscription fails; the schedule ends with the loop
    still turning; or the loop has ended, by the flag or by an exception
    (logged), and the final flush runs from the world [w1] the loop left. *)
Lemma run_cases (s : Subscription) (env : Env) (w : World) :
  let w0 := add_log (Info, "Starting CDC pipeline") w in
  (exists x, subscribe s = Raise x /\ Runner.run s env w = (Raise x, w0))
  \/ (exists w1,
         subscribe s = Ok tt
         /\ run_loop (ticks s) env w0 = (Ok None, w1)
         /\ Runner.run s env w = (Ok None, w1))
  \/ (exists w1 w2 res,
         subscribe s = Ok tt
         /\ ((run_loop (ticks s) env w0 = (Ok (Some tt), w1) /\ w2 = w1)
             \/ (exists x, run_loop (ticks s) env w0 = (Raise x, w1)
                           /\ w2 = add_log (Error, "Pipeline error") w1))
         /\ ((exists w3, _flush_all_buffers env w2 = (Ok tt, w3)
                         /\ res = (Ok (Some tt),
                                   add_log (Info, "CDC pipeline stopped") w3))
             \/ (exists x w3, _flush_all_buffers env w2 = (Raise x, w3)
                              /\ res = (Raise x, w3)))
         /\ Runner.run s env w = res).
Proof.
  intros w0. remember (Runner.run s env w) as out eqn:Hout.
  unfold Runner.run, bind at 1, logger in Hout. fold w0 in Hout.
  unfold bind at 1, lift in Hout.
  destruct (subscribe s) as [[] | x]; [ | left; eauto].
  right. unfold bind at 1, try_except in Hout.
  destruct (run_loop (ticks s) env w0) as [[[[] | ] | x] w1] eqn:Hloop.
  - right. exists w1, w1, out. split; [reflexivity | ].
    split; [left; now split | ]. split; [ | reflexivity].
    unfold bind in Hout.
    destruct (_flush_all_buffers env w1) as [[[] | y] w3]; subst out; eauto.
  - left. exists w1. subst out. repeat split.
  - right. exists w1, (add_log (Error, "Pipeline error") w1), out.
    split; [reflexivity | ]. split; [right; eauto | ]. split; [ | reflexivity].
    unfold bind, logger, ret in Hout.
    destruct (_flush_all_buffers env (add_log (Error, "Pipeline error") w1))
      as [[[] | y] w3]; subst out; eauto.
Qed.

(** The consistency of the buffers (hashable table names, no table without a
    row, a count that is the number of buffered rows) is kept by the handler
    and by [run], whatever the messages and whatever the client does. *)
Theorem engine_stays_consistent
    (m : Message) (s : Subscription) (env : Env) (w : World) :
  engine_ok w ->
  engine_ok (snd (_handle_message m env w))
  /\ engine_ok (snd (Runner.run s env w)).
Proof.
  intros Hok. split; [now apply engine_ok_handle_message | ].
  assert (engine_ok (add_log (Info, "Starting CDC pipeline") w)) as Hok0
    by (apply (engine_ok_self w); [reflexivity | exact Hok]).
  pose proof (engine_ok_run_loop env (ticks s) _ Hok0) as Hloop.
  destruct (run_cases s env w)
    as [(x & _ & ->) | [(w1 & _ & Hl & ->)
        | (w1 & w2 & res & _ & Hended & Hfinal & ->)]]; cbn [snd].
  - exact Hok0.
  - now rewrite Hl in Hloop.
  - assert (engine_ok w2) as Hok2.
    { destruct Hended as [[Hl ->] | (x & Hl & ->)]; rewrite Hl in Hloop;
        [exact Hloop | ].
      apply (engine_ok_self w1); [reflexivity | exact Hloop]. }
    destruct Hfinal as [(w3 & Hfl & ->) | (x & w3 & Hfl & ->)]; cbn [snd].
    + apply (engine_ok_self w3); [reflexivity | ].
      exact (engine_ok_flush env w2 w3 _ Hfl Hok2).
    + exact (engine_ok_flush env w2 w3 _ Hfl Hok2).
Qed.

Lemma fresh_engine_ok : engine_ok fresh.
Proof. repeat split; constructor. Qed.

Lemma engine_stays_consistent_witness :
  engine_ok (snd (_handle_message (message 1 (Json order_created)) sink_down fresh))
  /\ engine_ok (snd (Runner.run short_run sink_down fresh)).
Proof.
  exact (engine_stays_consistent (message 1 (Json order_created)) short_run
           sink_down fresh fresh_engine_ok).
Defined.

(** [run] by outcomes.  When subscribing raises, [run] raises with the start
    line logged and nothing else done.  Otherwise, once the loop has ended
    through the flag, or has raised, the exception being logged as "Pipeline
    error" and swallowed, the final flush runs.  When it returns, [run]
    returns with empty buffers, "CDC pipeline stopped" being its last log
    line.  When it raises, [run] raises that exception from the world the
    flush left: the rows are still buffered and "CDC pipeline stopped" is not
    logged. *)
Theorem run_outcomes (s : Subscription) (env : Env) (w : World) :
  (forall x,
      subscribe s = Raise x ->
      Runner.run s env w = (Raise x, add_log (Info, "Starting CDC pipeline") w))
  /\ (subscribe s = Ok tt ->
      forall (res : result (option unit)) (w1 w2 : World),
        run_loop (ticks s) env (add_log (Info, "Starting CDC pipeline") w) = (res, w1) ->
        (res = Ok (Some tt) /\ w2 = w1)
        \/ ((exists x, res = Raise x) /\ w2 = add_log (Error, "Pipeline error") w1) ->
        (forall w3,
            _flush_all_buffers env w2 = (Ok tt, w3) ->
            Runner.run s env w
            = (Ok (Some tt), add_log (Info, "CDC pipeline stopped") w3)
            /\ _buffer (self w3) = [])
        /\ (forall y w3,
               _flush_all_buffers env w2 = (Raise y, w3) ->
               Runner.run s env w = (Raise y, w3)
               /\ _buffer (self w3) = _buffer (self w2)
               /\ _buffer (self w3) <> [])).
Proof.
  split.
  - intros x Hsub.
    destruct (run_cases s env w)
      as [(y & Hs & ->) | [(w1 & Hs & _) | (w1 & w2 & res & Hs & _)]];
      congruence.
  - intros Hsub res w1 w2 Hloop Hended.
    assert (forall out w3,
               _flush_all_buffers env w2 = (out, w3) ->
               Runner.run s env w
               = match out with
                 | Ok _ => (Ok (Some tt), add_log (Info, "CDC pipeline stopped") w3)
                 | Raise y => (Raise y, w3)
                 end) as Hrun.
    { intros out w3 Hfl.
      destruct (run_cases s env w)
        as [(y & Hs & _) | [(w1' & _ & Hl & _)
            | (w1' & w2' & res' & _ & Hended' & Hfinal & ->)]].
      - congruence.
      - rewrite Hl in Hloop. destruct Hended as [[-> _] | [[x ->] _]]; discriminate.
      - assert (w2' = w2) as ->.
        { destruct Hended' as [[Hl ->] | (x & Hl & ->)]; rewrite Hl in Hloop;
            destruct Hended as [[-> ->] | [[x' ->] ->]]; congruence. }
        rewrite Hfl in Hfinal.
        destruct Hfinal as [(w3' & [= -> ->] & ->) | (y & w3' & [= -> ->] & ->)];
          reflexivity. }
    split.
    + intros w3 Hfl. split; [exact (Hrun _ _ Hfl) | ].
      destruct (flush_cases env w2)
        as [[Hb H1] | [(total & wa & _ & _ & _ & H1) | (z & wa & _ & _ & _ & H1)]];
        rewrite H1 in Hfl; try discriminate; injection Hfl as <-;
        [exact Hb | reflexivity].
    + intros y w3 Hfl. split; [exact (Hrun _ _ Hfl) | ].
      destruct (flush_cases env w2)
        as [[Hb H1] | [(total & wa & _ & _ & _ & H1)
            | (z & wa & Hne & Hw & Hsame & H1)]];
        rewrite H1 in Hfl; try discriminate; injection Hfl as <- <-.
      destruct Hsame as (Hb & _).
      split; [exact Hb | congruence].
Qed.

Lemma run_outcomes_witness :
  Runner.run short_run sink_accepts fresh
  = (Ok (Some tt),
     add_log (Info, "CDC pipeline stopped")
       (snd (_flush_all_buffers sink_accepts
               (snd (run_loop (ticks short_run) sink_accepts
                       (add_log (Info, "Starting CDC pipeline") fresh))))))
  /\ _buffer (self (snd (_flush_all_buffers sink_accepts
                           (snd (run_loop (ticks short_run) sink_accepts
                                   (add_log (Info, "Starting CDC pipeline") fresh))))))
     = [].
Proof.
  pose proof (surjective_pairing
                (run_loop (ticks short_run) sink_accepts
                   (add_log (Info, "Starting CDC pipeline") fresh))) as Hloop.
  assert (fst (run_loop (ticks short_run) sink_accepts
                 (add_log (Info, "Starting CDC pipeline") fresh))
          = Ok (Some tt)) as Hended by (vm_compute; reflexivity).
  rewrite Hended in Hloop.
  pose proof (surjective_pairing
                (_flush_all_buffers sink_accepts
                   (snd (run_loop (ticks short_run) sink_accepts
                           (add_log (Info, "Starting CDC pipeline") fresh)))))
    as Hflush.
  assert (fst (_flush_all_buffers sink_accepts
                 (snd (run_loop (ticks short_run) sink_accepts
                         (add_log (Info, "Starting CDC pipeline") fresh))))
          = Ok tt) as Hflushed by (vm_compute; reflexivity).
  rewrite Hflushed in Hflush.
  destruct (proj2 (run_outcomes short_run sink_accepts fresh) eq_refl _ _ _
              Hloop (or_introl (conj eq_refl eq_refl))) as [Hreturns _].
  exact (Hreturns _ Hflush).
Defined.

(** *** With a client that answers *)

Lemma flush_answers (env : Env) (w : World) :
  sink_answers env ->
  hashable_keys (_buffer (self w)) ->
  exists w',
    _flush_all_buffers env w = (Ok tt, w')
    /\ hashable_keys (_buffer (self w'))
    /\ rows_sunk (trace w') + rows_buffered (_buffer (self w'))
       = rows_sunk (trace w) + rows_buffered (_buffer (self w)).
Proof.
  intros Henv Hkeys.
  destruct (flush_conserves_rows env w Henv Hkeys) as [Hrows Hk].
  destruct (flush_cases env w)
    as [[_ H1] | [(total & w1 & _ & _ & _ & H1) | (x & w1 & _ & Hw & _)]].
  - rewrite H1 in *. eauto.
  - rewrite H1 in *. eauto.
  - destruct (write_all_answers env _ Henv Hkeys 0 w) as (t & w2 & Hall & _).
    rewrite Hall in Hw. discriminate.
Qed.

Lemma flush_if_due_answers (env : Env) (w : World) :
  sink_answers env ->
  hashable_keys (_buffer (self w)) ->
  exists w',
    flush_if_due env w = (Ok tt, w')
    /\ hashable_keys (_buffer (self w'))
    /\ rows_sunk (trace w') + rows_buffered (_buffer (self w'))
       = rows_sunk (trace w) + rows_buffered (_buffer (self w)).
Proof.
  intros Henv Hkeys.
  destruct (flush_if_due env w) as [res w'] eqn:Hfl.
  destruct (flush_if_due_cases env w w' res Hfl) as (w1 & Hw1 & Hres).
  assert (self w1 = self w /\ trace w1 = trace w) as [Hs Ht]
    by (destruct Hw1 as [-> | ->]; split; reflexivity).
  destruct Hres as [[-> ->] | Hflush].
  - exists w1. rewrite Hs, Ht. repeat split. exact Hkeys.
  - destruct (flush_answers env w1 Henv ltac:(now rewrite Hs))
      as (w2 & H2 & Hk2 & Hrows).
    rewrite H2 in Hflush. injection Hflush as <- <-.
    exists w2. rewrite Hs, Ht in Hrows. repeat split; assumption.
Qed.

Lemma handle_message_answers (m : Message) (env : Env) (w : World) :
  sink_answers env ->
  hashable_keys (_buffer (self w)) ->
  exists w',
    _handle_message m env w = (Ok tt, w')
    /\ hashable_keys (_buffer (self w'))
    /\ unacknowledged w' = unacknowledged w
    /\ _running (self w') = _running (self w).
Proof.
  intros Henv Hkeys. unfold unacknowledged.
  destruct (handle_message_steps m env w)
    as (w' & Hrun & [(Hself & Htrace & Hacks)
        | (table & r & res & w2 & Ht & Hfl & Hself & Htrace & Hacks)]);
    exists w'; (split; [exact Hrun | ]); rewrite Hself, Htrace, Hacks.
  - repeat split. exact Hkeys.
  - destruct (flush_if_due_frame env _ w2 res Hfl) as (_ & Hr & _).
    destruct (flush_if_due_answers env (accepted m table r w) Henv)
      as (w3 & H3 & Hk3 & Hrows);
      [cbn; now apply hashable_keys_appended | ].
    rewrite H3 in Hfl. injection Hfl as <- <-.
    split; [exact Hk3 | ]. split; [ | exact Hr].
    rewrite Hrows. cbn. rewrite rows_buffered_appended. lia.
Qed.

Lemma deliver_answers (env : Env) (messages : list Message) :
  sink_answers env ->
  forall w : World,
    hashable_keys (_buffer (self w)) ->
    exists w',
      deliver messages env w = (Ok tt, w')
      /\ hashable_keys (_buffer (self w'))
      /\ unacknowledged w' = unacknowledged w
      /\ _running (self w') = _running (self w).
Proof.
  intros Henv.
  induction messages as [ | m rest IH]; intros w Hkeys; cbn [deliver].
  - exists w. repeat split. exact Hkeys.
  - unfold bind.
    destruct (handle_message_answers m env w Henv Hkeys) as (w1 & -> & Hk1 & Hu1 & Hr1).
    destruct (IH w1 Hk1) as (w2 & H2 & Hk2 & Hu2 & Hr2).
    exists w2. repeat split; try assumption; congruence.
Qed.

Lemma sleep_answers (env : Env) (t : Tick) (w : World) :
  sink_answers env ->
  hashable_keys (_buffer (self w)) ->
  exists w',
    sleep t env w = (Ok tt, w')
    /\ hashable_keys (_buffer (self w'))
    /\ unacknowledged w' = unacknowledged w
    /\ _running (self w')
       = match signalled t with Some _ => false | None => _running (self w) end.
Proof.
  intros Henv Hkeys. unfold sleep, bind.
  destruct (deliver_answers env (delivered t) Henv w Hkeys)
    as (w1 & -> & Hk1 & Hu1 & Hr1).
  destruct (signalled t); eexists; (split; [reflexivity | ]); cbn;
    repeat split; assumption.
Qed.

(** With a client that answers the loop never raises; it ends, flag down,
    when a signal comes within the schedule. *)
Lemma run_loop_answers (env : Env) (schedule : list Tick) :
  sink_answers env ->
  forall w : World,
    hashable_keys (_buffer (self w)) ->
    exists ended w',
      run_loop schedule env w = (Ok ended, w')
      /\ hashable_keys (_buffer (self w'))
      /\ unacknowledged w' = unacknowledged w
      /\ (ended = Some tt -> _running (self w') = false)
      /\ (Exists (fun t => ~ unsignalled t) schedule -> ended = Some tt).
Proof.
  intros Henv.
  induction schedule as [ | t rest IH]; intros w Hkeys; cbn [run_loop];
    unfold bind at 1, get_self; destruct (_running (self w)) eqn:Hrun.
  - exists None, w. repeat split; try assumption; try discriminate.
    intros H. inversion H.
  - exists (Some tt), w. repeat split; intros; assumption.
  - unfold bind at 1.
    destruct (sleep_answers env t w Henv Hkeys) as (w1 & -> & Hk1 & Hu1 & Hr1).
    unfold bind at 1.
    destruct (flush_if_due_answers env w1 Henv Hk1) as (w2 & Hfl & Hk2 & Hrows2).
    destruct (flush_if_due_frame env w1 w2 _ Hfl) as (Hbus2 & Hr2 & _).
    rewrite Hfl.
    destruct (IH w2 Hk2) as (ended & w3 & Hloop & Hk3 & Hu3 & Hdown & Hsig).
    exists ended, w3. split; [exact Hloop | ]. split; [exact Hk3 | ].
    split; [unfold unacknowledged in *; rewrite Hu3, Hbus2; lia | ].
    split; [exact Hdown | ].
    intros Hex. inversion Hex as [? ? Hnow | ? ? Hlater]; subst.
    + destruct rest as [ | t' rest']; cbn [run_loop] in Hloop;
        unfold bind at 1, get_self in Hloop;
        (destruct (signalled t) eqn:Hs; [ | now contradiction Hnow]);
        rewrite Hr2, Hr1 in Hloop; now injection Hloop as <- _.
    + now apply Hsig.
  - exists (Some tt), w. repeat split; intros; assumption.
Qed.

(** The shutdown: with a client that answers every request, once a signal
    has come [run] returns, the flag is down and the buffers are empty; and
    the sink has been handed every row that was buffered at the start and one
    row per message acknowledged since, no more. *)
Theorem shutdown_drains (s : Subscription) (env : Env) (w : World) :
  sink_answers env ->
  hashable_keys (_buffer (self w)) ->
  subscribe s = Ok tt ->
  Exists (fun t => ~ unsignalled t) (ticks s) ->
  exists w',
    Runner.run s env w = (Ok (Some tt), w')
    /\ _buffer (self w') = []
    /\ _running (self w') = false
    /\ rows_sunk (trace w')
       = rows_sunk (trace w) + rows_buffered (_buffer (self w))
         + (acks (bus w') - acks (bus w)).
Proof.
  intros Henv Hkeys Hsub Hsignal.
  destruct (run_loop_answers env (ticks s) Henv
              (add_log (Info, "Starting CDC pipeline") w) Hkeys)
    as (ended & w1 & Hloop & Hk1 & Hu1 & Hdown & Hsig).
  specialize (Hsig Hsignal). subst ended. specialize (Hdown eq_refl).
  destruct (flush_answers env w1 Henv Hk1) as (w3 & Hfl & _ & Hrows).
  destruct (flush_frame env w1 w3 _ Hfl) as (Hbus & Hr & _).
  destruct (run_cases s env w)
    as [(x & Hs & _) | [(wa & _ & Hl & _)
        | (wa & w2 & res & _ & Hended & Hfinal & ->)]];
    [congruence | rewrite Hloop in Hl; discriminate | ].
  destruct Hended as [[Hl ->] | (x & Hl & _)]; rewrite Hloop in Hl;
    [ | discriminate].
  injection Hl as <-.
  destruct Hfinal as [(wb & Hfb & ->) | (x & wb & Hfb & _)]; rewrite Hfl in Hfb;
    [ | discriminate].
  injection Hfb as <-.
  eexists. split; [reflexivity | ].
  cbn [self add_log trace bus].
  destruct (flush_cases env w1)
    as [[Hb H1] | [(total & wc & _ & _ & _ & H1) | (z & wc & _ & _ & _ & H1)]];
    rewrite H1 in Hfl; try discriminate; injection Hfl as <-.
  - unfold unacknowledged in Hu1. cbn [self add_log trace bus] in Hu1.
    rewrite Hb in *. cbn [rows_buffered] in *. repeat split; try assumption. lia.
  - unfold unacknowledged in Hu1. cbn [self add_log trace bus] in Hu1.
    cbn in Hrows, Hbus, Hr |- *. rewrite Hbus.
    repeat split; try congruence. lia.
Qed.

Lemma shutdown_drains_witness :
  exists w',
    Runner.run short_run sink_accepts fresh = (Ok (Some tt), w')
    /\ _buffer (self w') = []
    /\ _running (self w') = false
    /\ rows_sunk (trace w') = 0 + 0 + (acks (bus w') - 0).
Proof.
  apply (shutdown_drains short_run sink_accepts fresh).
  - exact sink_accepts_answers.
  - constructor.
  - reflexivity.
  - right. right. left. discriminate.
Defined.

(** *** Without a signal *)

Lemma handle_message_running (m : Message) (env : Env) (w : World) :
  exists w',
    _handle_message m env w = (Ok tt, w')
    /\ _running (self w') = _running (self w).
Proof.
  destruct (handle_message_steps m env w)
    as (w' & Hrun & [(Hself & _) | (table & r & res & w2 & _ & Hfl & Hself & _)]);
    exists w'; (split; [exact Hrun | ]); rewrite Hself; [reflexivity | ].
  now destruct (flush_if_due_frame env _ w2 res Hfl) as (_ & -> & _).
Qed.

Lemma deliver_running (env : Env) (messages : list Message) :
  forall w : World,
  exists w',
    deliver messages env w = (Ok tt, w')
    /\ _running (self w') = _running (self w).
Proof.
  induction messages as [ | m rest IH]; intros w; cbn [deliver].
  - exists w. now split.
  - unfold bind. destruct (handle_message_running m env w) as (w1 & -> & Hr1).
    destruct (IH w1) as (w2 & H2 & Hr2). exists w2. split; congruence.
Qed.

(** The loop ends only through a signal or an exception: neither the handler
    nor a flush lowers the running flag, so on seconds without a signal a
    running loop keeps turning until a flush raises, the flag still up. *)
Theorem loop_ends_by_signal_or_exception
    (env : Env) (schedule : list Tick) (w w' : World) (res : result (option unit)) :
  Forall unsignalled schedule ->
  _running (self w) = true ->
  run_loop schedule env w = (res, w') ->
  (res = Ok None \/ exists x, res = Raise x)
  /\ _running (self w') = true.
Proof.
  intros Hquiet. revert w.
  induction Hquiet as [ | t rest Ht Hrest IH]; intros w Hrun; cbn [run_loop];
    unfold bind at 1, get_self; rewrite Hrun.
  - intros [= <- <-]. split; [now left | exact Hrun].
  - unfold bind at 1, sleep, bind at 1.
    destruct (deliver_running env (delivered t) w) as (w1 & -> & Hr1).
    unfold unsignalled in Ht. rewrite Ht. unfold ret, bind at 1.
    destruct (flush_if_due env w1) as [[[] | x] w2] eqn:Hfl;
      destruct (flush_if_due_frame env w1 w2 _ Hfl) as (_ & Hr2 & _).
    + apply IH. congruence.
    + intros [= <- <-]. split; [right; eauto | congruence].
Qed.

Lemma loop_ends_by_signal_or_exception_witness :
  (fst (run_loop [busy_second; quiet_second] sink_down eager) = Ok None
   \/ exists x, fst (run_loop [busy_second; quiet_second] sink_down eager) = Raise x)
  /\ _running (self (snd (run_loop [busy_second; quiet_second] sink_down eager)))
     = true.
Proof.
  apply (loop_ends_by_signal_or_exception sink_down [busy_second; quiet_second]
           eager (snd (run_loop [busy_second; quiet_second] sink_down eager))
           (fst (run_loop [busy_second; quiet_second] sink_down eager))).
  - repeat constructor.
  - reflexivity.
  - vm_compute. reflexivity.
Defined.

(** *** The processed count *)

Lemma ensure_rows_sunk (env : Env) (w w1 : World) (table : pyval)
    (res : result string) :
  ensure_table_exists table env w = (res, w1) ->
  rows_sunk (trace w1) = rows_sunk (trace w).
Proof.
  unfold ensure_table_exists, bind, get_self.
  destruct (hashable table); cbn [negb].
  - destruct (pd_get (_table_schemas (sink (self w))) table).
    + now intros [= _ <-].
    + unfold try_except, bind, client_create_table.
      destruct (create_table env _ _); intros [= _ <-]; cbn;
        rewrite rows_sunk_app; cbn; lia.
  - now intros [= _ <-].
Qed.

Lemma write_batch_bound (env : Env) (w w1 : World) (table : pyval)
    (rows : list row) (res : result Z) :
  write_batch table rows env w = (res, w1) ->
  rows_sunk (trace w) <= rows_sunk (trace w1)
  /\ match res with
     | Ok n => n <= rows_sunk (trace w1) - rows_sunk (trace w)
     | Raise _ => True
     end.
Proof.
  unfold write_batch. destruct rows as [ | r rows].
  - intros Hrun. pose proof (f_equal fst Hrun) as Hres.
    pose proof (f_equal snd Hrun) as Hw. cbn [fst snd ret] in Hres, Hw.
    subst res w1. split; lia.
  - unfold bind at 1.
    destruct (ensure_table_exists table env w) as [[id | x] we] eqn:Hensure;
      apply ensure_rows_sunk in Hensure.
    + unfold bind at 1, client_insert_rows_json.
      destruct (insert_rows_json env _ id (r :: rows)) as [[ | err errs] | x];
        intros Hrun; unfold bind, logger, ret in Hrun;
        pose proof (f_equal fst Hrun) as Hres;
        pose proof (f_equal snd Hrun) as Hw; cbn [fst snd] in Hres, Hw;
        subst res w1; cbn [trace add_log record_call];
        rewrite ?rows_sunk_app, Hensure; cbn [rows_sunk];
        (split; [lia | try exact I; lia]).
    + intros Hrun. pose proof (f_equal fst Hrun) as Hres.
      pose proof (f_equal snd Hrun) as Hw. cbn [fst snd] in Hres, Hw.
      subst res w1. split; [lia | exact I].
Qed.

Lemma write_all_bound (env : Env) (items : pydict (list row)) :
  forall (acc : Z) (w w1 : World) (res : result Z),
    write_all items acc env w = (res, w1) ->
    rows_sunk (trace w) <= rows_sunk (trace w1)
    /\ match res with
       | Ok total => total - acc <= rows_sunk (trace w1) - rows_sunk (trace w)
       | Raise _ => True
       end.
Proof.
  induction items as [ | [table rows] rest IH]; intros acc w w1 res; cbn [write_all].
  - intros Hrun. pose proof (f_equal fst Hrun) as Hres.
    pose proof (f_equal snd Hrun) as Hw. cbn [fst snd ret] in Hres, Hw.
    subst res w1. split; lia.
  - unfold bind.
    destruct (write_batch table rows env w) as [[written | x] wb] eqn:Hbatch;
      destruct (write_batch_bound env w wb table rows _ Hbatch) as [Hmono Hn].
    + intros Hrest. destruct (IH _ _ _ _ Hrest) as [Hmono' Ht].
      split; [lia | ]. destruct res; [lia | exact I].
    + intros Hrun. pose proof (f_equal fst Hrun) as Hres.
      pose proof (f_equal snd Hrun) as Hw. cbn [fst snd] in Hres, Hw.
      subst res w1. split; [lia | exact I].
Qed.

Lemma flush_overcount (env : Env) (w w' : World) (res : result unit) :
  _flush_all_buffers env w = (res, w') -> overcount w' <= overcount w.
Proof.
  intros H. unfold overcount.
  destruct (flush_cases env w)
    as [[_ H1] | [(total & w1 & _ & Hw & Hsame & H1) | (x & w1 & _ & Hw & Hsame & H1)]];
    rewrite H1 in H; injection H as <- <-.
  - lia.
  - destruct (write_all_bound env _ _ _ _ _ Hw) as [_ Hb].
    destruct Hsame as (_ & _ & _ & _ & Htotal & _). cbn. rewrite Htotal. lia.
  - destruct (write_all_bound env _ _ _ _ _ Hw) as [Hmono _].
    destruct Hsame as (_ & _ & _ & _ & Htotal & _). rewrite Htotal. lia.
Qed.

Lemma flush_if_due_overcount (env : Env) (w w' : World) (res : result unit) :
  flush_if_due env w = (res, w') -> overcount w' <= overcount w.
Proof.
  intros H. destruct (flush_if_due_cases env w w' res H) as (w1 & Hw1 & Hres).
  assert (overcount w1 = overcount w) as <-
    by (destruct Hw1 as [-> | ->]; reflexivity).
  destruct Hres as [[_ ->] | Hflush]; [lia | ].
  exact (flush_overcount env w1 w' res Hflush).
Qed.

Lemma handle_message_overcount (m : Message) (env : Env) (w : World) :
  exists w', _handle_message m env w = (Ok tt, w') /\ overcount w' <= overcount w.
Proof.
  destruct (handle_message_steps m env w)
    as (w' & Hrun & [(Hself & Htrace & _)
        | (table & r & res & w2 & _ & Hfl & Hself & Htrace & _)]);
    exists w'; (split; [exact Hrun | ]); unfold overcount; rewrite Hself, Htrace.
  - lia.
  - exact (flush_if_due_overcount env _ w2 res Hfl).
Qed.

Lemma deliver_overcount (env : Env) (messages : list Message) :
  forall w : World,
  exists w', deliver messages env w = (Ok tt, w') /\ overcount w' <= overcount w.
Proof.
  induction messages as [ | m rest IH]; intros w; cbn [deliver].
  - exists w. split; [reflexivity | lia].
  - unfold bind. destruct (handle_message_overcount m env w) as (w1 & -> & H1).
    destruct (IH w1) as (w2 & H2 & Hle). exists w2. split; [exact H2 | lia].
Qed.

Lemma run_loop_overcount (env : Env) (schedule : list Tick) :
  forall w : World, overcount (snd (run_loop schedule env w)) <= overcount w.
Proof.
  induction schedule as [ | t rest IH]; intros w; cbn [run_loop];
    unfold bind at 1, get_self; destruct (_running (self w)); cbn [snd ret];
    try lia.
  unfold bind at 1, sleep, bind at 1.
  destruct (deliver_overcount env (delivered t) w) as (w1 & -> & H1).
  assert (exists w1', (match signalled t with
                       | Some signum => _shutdown signum
                       | None => ret tt
                       end) env w1 = (Ok tt, w1')
                      /\ overcount w1' = overcount w1) as (w1' & -> & Hsame)
    by (destruct (signalled t); eexists; split; reflexivity).
  unfold bind at 1.
  destruct (flush_if_due env w1') as [[[] | x] w2] eqn:Hfl;
    pose proof (flush_if_due_overcount env w1' w2 _ Hfl) as H2.
  - specialize (IH w2). lia.
  - cbn [snd]. lia.
Qed.

(** The processed count never runs ahead of the sink when the handler and the
    loop run one at a time, no row being appended while a flush is under way
    (the schedules of [Runner]): through a call of the handler and through
    [run], whatever the client answers or raises, [_total_processed] grows by
    no more than the number of rows handed to the client. *)
Theorem processed_never_exceeds_sent
    (m : Message) (s : Subscription) (env : Env) (w : World) :
  _total_processed (self (snd (_handle_message m env w))) - _total_processed (self w)
  <= rows_sunk (trace (snd (_handle_message m env w))) - rows_sunk (trace w)
  /\ _total_processed (self (snd (Runner.run s env w))) - _total_processed (self w)
     <= rows_sunk (trace (snd (Runner.run s env w))) - rows_sunk (trace w).
Proof.
  split.
  - destruct (handle_message_overcount m env w) as (w' & -> & Hle).
    unfold overcount in Hle. cbn [snd]. lia.
  - pose proof (run_loop_overcount env (ticks s)
                  (add_log (Info, "Starting CDC pipeline") w)) as Hloop.
    destruct (run_cases s env w)
      as [(x & _ & ->) | [(w1 & _ & Hl & ->)
          | (w1 & w2 & res & _ & Hended & Hfinal & ->)]]; cbn [snd].
    + cbn. lia.
    + rewrite Hl in Hloop. unfold overcount in Hloop. cbn in Hloop. lia.
    + assert (overcount w2 <= overcount w) as H2.
      { destruct Hended as [[Hl ->] | (x & Hl & ->)]; rewrite Hl in Hloop;
          unfold overcount in *; cbn in *; lia. }
      destruct Hfinal as [(w3 & Hfl & ->) | (x & w3 & Hfl & ->)];
        pose proof (flush_overcount env w2 w3 _ Hfl) as H3;
        unfold overcount in *; cbn in *; lia.
Qed.

(** *** The outcomes of the handler *)

(** When the policy and the flush raise, the buffers are as they were. *)
Lemma failed_flush_keeps_buffer (env : Env) (w w' : World) (x : exn) :
  flush_if_due env w = (Raise x, w') ->
  _buffer (self w') = _buffer (self w)
  /\ _buffer_count (self w') = _buffer_count (self w).
Proof.
  intros H. destruct (flush_if_due_cases env w w' _ H) as (w1 & Hw1 & Hres).
  assert (self w1 = self w) as Hs by (destruct Hw1 as [-> | ->]; reflexivity).
  destruct Hres as [[Hno _] | Hflush]; [discriminate | ].
  destruct (flush_cases env w1)
    as [[_ H1] | [(total & wa & _ & _ & _ & H1) | (y & wa & _ & _ & Hsame & H1)]];
    rewrite H1 in Hflush; try discriminate.
  injection Hflush as _ <-.
  destruct Hsame as (Hb & Hc & _). rewrite <- Hs. now split.
Qed.

Lemma write_batch_sunk (env : Env) (w w1 : World) (table : pyval)
    (rows : list row) (res : result Z) :
  write_batch table rows env w = (res, w1) ->
  match res with
  | Ok _ => rows_sunk (trace w1) = rows_sunk (trace w) + Z.of_nat (List.length rows)
  | Raise _ => True
  end.
Proof.
  unfold write_batch. destruct rows as [ | r rows].
  - intros Hrun. pose proof (f_equal fst Hrun) as Hres.
    pose proof (f_equal snd Hrun) as Hw. cbn [fst snd ret] in Hres, Hw.
    subst res w1. cbn. lia.
  - unfold bind at 1.
    destruct (ensure_table_exists table env w) as [[id | x] we] eqn:Hensure;
      apply ensure_rows_sunk in Hensure.
    + unfold bind at 1, client_insert_rows_json.
      destruct (insert_rows_json env _ id (r :: rows)) as [[ | err errs] | x];
        intros Hrun; unfold bind, logger, ret in Hrun;
        pose proof (f_equal fst Hrun) as Hres;
        pose proof (f_equal snd Hrun) as Hw; cbn [fst snd] in Hres, Hw;
        subst res w1; cbn [trace add_log record_call];
        rewrite ?rows_sunk_app, ?Hensure; cbn [rows_sunk];
        try exact I; lia.
    + intros Hrun. pose proof (f_equal fst Hrun) as Hres. cbn [fst] in Hres.
      subst res. exact I.
Qed.

Lemma write_all_sunk (env : Env) (items : pydict (list row)) :
  forall (acc : Z) (w w1 : World) (res : result Z),
    write_all items acc env w = (res, w1) ->
    match res with
    | Ok _ => rows_sunk (trace w1) = rows_sunk (trace w) + rows_buffered items
    | Raise _ => True
    end.
Proof.
  induction items as [ | [table rows] rest IH]; intros acc w w1 res;
    cbn [write_all rows_buffered].
  - intros Hrun. pose proof (f_equal fst Hrun) as Hres.
    pose proof (f_equal snd Hrun) as Hw. cbn [fst snd ret] in Hres, Hw.
    subst res w1. lia.
  - unfold bind.
    destruct (write_batch table rows env w) as [[written | x] wb] eqn:Hbatch.
    + apply write_batch_sunk in Hbatch. intros Hrest.
      specialize (IH _ _ _ _ Hrest). destruct res; [lia | exact I].
    + intros Hrun. pose proof (f_equal fst Hrun) as Hres. cbn [fst] in Hres.
      subst res. exact I.
Qed.

(** A flush that returns has handed every buffered row to the client. *)
Lemma flush_sunk (env : Env) (w w' : World) :
  _flush_all_buffers env w = (Ok tt, w') ->
  rows_sunk (trace w') + rows_buffered (_buffer (self w'))
  = rows_sunk (trace w) + rows_buffered (_buffer (self w)).
Proof.
  intros H.
  destruct (flush_cases env w)
    as [[_ H1] | [(total & w1 & _ & Hw & _ & H1) | (x & w1 & _ & _ & _ & H1)]];
    rewrite H1 in H; try discriminate; injection H as <-.
  - reflexivity.
  - apply write_all_sunk in Hw. cbn. lia.
Qed.

Lemma flush_if_due_sunk (env : Env) (w w' : World) :
  flush_if_due env w = (Ok tt, w') ->
  rows_sunk (trace w') + rows_buffered (_buffer (self w'))
  = rows_sunk (trace w) + rows_buffered (_buffer (self w)).
Proof.
  intros H. destruct (flush_if_due_cases env w w' _ H) as (w1 & Hw1 & Hres).
  assert (self w1 = self w /\ trace w1 = trace w) as [Hs Ht]
    by (destruct Hw1 as [-> | ->]; split; reflexivity).
  rewrite <- Hs, <- Ht.
  destruct Hres as [[_ ->] | Hflush]; [reflexivity | ].
  exact (flush_sunk env w1 w' Hflush).
Qed.

(** No exception leaves the handler, and what it tells the bus follows what
    it did with the message.  Either lines 227-238 raise: nothing is
    buffered, the engine and the client are untouched, and the bus is told
    [Nack].  Or they buffer the row projected from the parsed message under
    its table name and tell the bus [Ack]; then, when the flush policy
    returns, nothing more is told and the rows handed to the client and the
    rows buffered are together one more than before, and when the flush
    raises, [Nack] follows [Ack] for the same message while the row stays
    buffered and counted. *)
Theorem handle_message_outcomes (m : Message) (env : Env) (w : World) :
  exists w',
    _handle_message m env w = (Ok tt, w')
    /\ ((exists x reads event,
            buffer_message m env w = (Raise x, set_utc_reads reads w)
            /\ w' = rejected m event (set_utc_reads reads w)
            /\ bus w' = (bus w ++ [Nack (message_id m)])%list
            /\ self w' = self w
            /\ trace w' = trace w)
        \/ (exists payload e r,
               data m = Json payload
               /\ from_debezium payload = Ok e
               /\ to_bigquery_row e (utcnow env) (utc_reads w)
                  = (Ok r, S (utc_reads w))
               /\ hashable (table_name e) = true
               /\ buffer_message m env w = (Ok tt, accepted m (table_name e) r w)
               /\ ((flush_if_due env (accepted m (table_name e) r w) = (Ok tt, w')
                    /\ bus w' = (bus w ++ [Ack (message_id m)])%list
                    /\ rows_sunk (trace w') + rows_buffered (_buffer (self w'))
                       = rows_sunk (trace w) + rows_buffered (_buffer (self w)) + 1)
                   \/ (exists x w2 event,
                          flush_if_due env (accepted m (table_name e) r w)
                          = (Raise x, w2)
                          /\ w' = rejected m event w2
                          /\ bus w'
                             = (bus w ++ [Ack (message_id m); Nack (message_id m)])%list
                          /\ _buffer (self w')
                             = appended (_buffer (self w)) (table_name e) r
                          /\ _buffer_count (self w') = _buffer_count (self w) + 1)))).
Proof.
  destruct (buffer_message m env w) as [res w1] eqn:Hbuf.
  destruct (buffer_message_inv m env w w1 res Hbuf)
    as [(payload & e & r & Hdata & Hparse & Hrow & Htable & -> & ->)
       | (x & reads & -> & ->)].
  - rewrite (handle_message_buffered m env w _ Hbuf).
    unfold try_except.
    destruct (flush_if_due env (accepted m (table_name e) r w))
      as [[[] | x] w2] eqn:Hflush;
      destruct (flush_if_due_frame env _ w2 _ Hflush) as (Hbus & _).
    + exists w2. split; [reflexivity | ]. right.
      exists payload, e, r. repeat (split; [assumption | ]).
      split; [reflexivity | ]. left.
      split; [exact Hflush | ]. split; [rewrite Hbus; reflexivity | ].
      rewrite (flush_if_due_sunk env _ w2 Hflush).
      cbn [accepted self trace add_bus upd_self set_utc_reads _buffer set_buffer
             set_buffer_count].
      rewrite rows_buffered_appended. lia.
    + assert (exists event, on_exception m x env w2 = (Ok tt, rejected m event w2))
        as [event ->] by (destruct x; eexists; reflexivity).
      exists (rejected m event w2). split; [reflexivity | ]. right.
      exists payload, e, r. repeat (split; [assumption | ]).
      split; [reflexivity | ]. right.
      exists x, w2, event. split; [exact Hflush | ]. split; [reflexivity | ].
      destruct (failed_flush_keeps_buffer env _ w2 x Hflush) as [Hb Hc].
      split.
      { cbn [rejected bus add_bus add_log]. rewrite Hbus. cbn.
        now rewrite <- app_assoc. }
      split; [cbn [rejected self add_bus add_log]; rewrite Hb; reflexivity | ].
      cbn [rejected self add_bus add_log]. rewrite Hc. reflexivity.
  - assert (bind (buffer_message m) (fun _ => flush_if_due) env w
            = (Raise x, set_utc_reads reads w)) as Hraise
      by (unfold bind; now rewrite Hbuf).
    destruct (handle_message_raised m env w _ x Hraise) as [event Hevent].
    eexists. split; [exact Hevent | ]. left.
    exists x, reads, event. repeat split.
Qed.

End RunProps.
